(** * NamAstra: wish-to-filter resolution and deterministic name search

    A shallow embedding of the search pipeline of [src/app/page.tsx]
    ([searchNames], [getNakshatra], [runParseAndSearch], [onSearch]) and of
    the parse route [src/app/api/parse-wishes/route.ts] ([POST]).

    The filter object that reaches [searchNames] is built at run time by
    object spread from the UI state and from whatever JSON the parse route
    answered ([{ ...filters, ...parsed } as WishFilters]); TypeScript's types
    are erased there.  Filters are therefore modelled as the JavaScript
    objects they are: finite maps from property names to JavaScript values,
    with the language's own truthiness, strict equality and method lookup.

    Idealisations: numbers are integers (no fractions, NaN or negative
    zero), and strings are byte strings whose case conversion touches the
    ASCII letters only. *)

From Stdlib Require Import ZArith Ascii String.
From stdpp Require Import gmap strings list fin_maps pretty.

Local Open Scope string_scope.

(** ** JavaScript values *)

#[warnings="-register-all"]
Inductive JsVal : Type :=
| JUndefined
| JNull
| JBool (b : bool)
| JNum (n : Z)
| JStr (s : string)
| JArr (xs : list JsVal)
| JObj (o : gmap string JsVal).

(** An exception that unwinds the running (async) function: a rejected
    promise is the same thing seen from the caller's [await]. *)
Inductive Exn : Type :=
| TypeError
| Rejected (reason : string).

Inductive Completion (A : Type) : Type :=
| Normal (a : A)
| Throw (e : Exn).
Arguments Normal {A} a.
Arguments Throw {A} e.

#[global] Instance Completion_ret : MRet Completion := fun _ a => Normal a.
#[global] Instance Completion_bind : MBind Completion := fun _ _ k m =>
  match m with
  | Normal a => k a
  | Throw e => Throw e
  end.

(** [if (v)], [v && w], [v || w] all test this. *)
Definition truthy (v : JsVal) : bool :=
  match v with
  | JUndefined | JNull => false
  | JBool b => b
  | JNum n => negb (n =? 0)%Z
  | JStr s => negb (String.eqb s "")
  | JArr _ | JObj _ => true
  end.

(** [v || w] *)
Definition jsOr (v w : JsVal) : JsVal := if truthy v then v else w.

(** [s === v] for a string [s]; [n === v] for a number [n]. *)
Definition strictEqStr (s : string) (v : JsVal) : bool :=
  match v with
  | JStr t => String.eqb s t
  | _ => false
  end.

Definition strictEqNum (n : Z) (v : JsVal) : bool :=
  match v with
  | JNum m => (n =? m)%Z
  | _ => false
  end.

(** [o.k] on an object literal: own properties only (none of the names read
    here lives on [Object.prototype]). *)
Definition field (o : gmap string JsVal) (k : string) : JsVal :=
  default JUndefined (o !! k).

(** [v?.k] for a property name [k] that is neither an index nor [length]:
    [undefined] on a nullish receiver and on primitives and arrays. *)
Definition optField (v : JsVal) (k : string) : JsVal :=
  match v with
  | JObj o => field o k
  | _ => JUndefined
  end.

(** [v?.length]; also [v.length] where the code has checked [v] truthy. *)
Definition lengthOf (v : JsVal) : JsVal :=
  match v with
  | JArr xs => JNum (Z.of_nat (length xs))
  | JStr s => JNum (Z.of_nat (String.length s))
  | JObj o => field o "length"
  | _ => JUndefined
  end.

(** ** Strings *)

Definition lowerAscii (c : ascii) : ascii :=
  let n := nat_of_ascii c in
  if (65 <=? n)%nat && (n <=? 90)%nat then ascii_of_nat (n + 32) else c.

Fixpoint toLowerCase (s : string) : string :=
  match s with
  | EmptyString => EmptyString
  | String c s' => String (lowerAscii c) (toLowerCase s')
  end.

(** [s.startsWith(p)] *)
Fixpoint startsWith (s p : string) {struct p} : bool :=
  match p with
  | EmptyString => true
  | String a p' =>
      match s with
      | EmptyString => false
      | String b s' => if Ascii.eqb a b then startsWith s' p' else false
      end
  end.

(** [t.includes(s)] on a string receiver [t]. *)
Fixpoint strIncludes (t s : string) : bool :=
  startsWith t s ||
  match t with
  | EmptyString => false
  | String _ t' => strIncludes t' s
  end.

(** ** Methods called on values of unchecked type *)

(** [v.toLowerCase()]: only strings have the method. *)
Definition callToLowerCase (v : JsVal) : Completion string :=
  match v with
  | JStr s => Normal (toLowerCase s)
  | _ => Throw TypeError
  end.

(** [v.includes(s)] with a string argument: [Array.prototype.includes]
    compares by SameValueZero, [String.prototype.includes] searches a
    substring; nothing else that JSON can produce has the method. *)
Definition callIncludes (v : JsVal) (s : string) : Completion bool :=
  match v with
  | JArr xs => Normal (existsb (strictEqStr s) xs)
  | JStr t => Normal (strIncludes t s)
  | _ => Throw TypeError
  end.

(** [Array.prototype.some] and [Array.prototype.filter] with a callback that
    may throw: the first exception aborts the scan, and [some] stops at the
    first hit. *)
Fixpoint someM {A : Type} (cb : A → Completion bool) (l : list A) : Completion bool :=
  match l with
  | [] => Normal false
  | x :: l' => b ← cb x; if b : bool then Normal true else someM cb l'
  end.

Fixpoint filterM {A : Type} (cb : A → Completion bool) (l : list A) : Completion (list A) :=
  match l with
  | [] => Normal []
  | x :: l' =>
      b ← cb x;
      rest ← filterM cb l';
      Normal (if b : bool then x :: rest else rest)
  end.

(** [v.some(cb)]: only arrays have the method. *)
Definition callSome (v : JsVal) (cb : JsVal → Completion bool) : Completion bool :=
  match v with
  | JArr xs => someM cb xs
  | _ => Throw TypeError
  end.

(** ** Data model *)

Record NameRecord : Type := {
  id : string;
  name : string;
  gender : string;
  scripts : gmap string string;
  syllables : Z;
  phoneticStart : string;
  deityAffinity : string;
  sources : list string;
  meaning : string;
  language : string;
  regionTags : list string;
  modernity : Z;
  globalPronounce : Z;
  nicknames : list string;
  related : list string;
  popularity : option string
}.

(** A [WishFilters] value at run time: an object read by property name. *)
Abbreviation WishFilters := (gmap string JsVal).

Definition Vihaan : NameRecord :=
  {| id := "1"; name := "Vihaan"; gender := "boy";
     scripts := {[ "Latin" := "Vihaan"; "Devanagari" := "विहान" ]};
     syllables := 2; phoneticStart := "Vi"; deityAffinity := "Vishnu";
     sources := ["Sahasranama"; "Puranas"];
     meaning := "Dawn; the first ray of sun";
     language := "Sanskrit"; regionTags := ["Pan-India"];
     modernity := 4; globalPronounce := 4;
     nicknames := ["Vii"; "Han"]; related := ["Vivaan"; "Vihan"];
     popularity := Some "common" |}.

Definition Vedant : NameRecord :=
  {| id := "2"; name := "Vedant"; gender := "boy";
     scripts := {[ "Latin" := "Vedant"; "Devanagari" := "वेदान्त" ]};
     syllables := 2; phoneticStart := "Ve"; deityAffinity := "None";
     sources := ["Upanishads"];
     meaning := "The end/culmination of the Veda; knowledge of the Self";
     language := "Sanskrit"; regionTags := ["Pan-India"];
     modernity := 3; globalPronounce := 3;
     nicknames := ["Ved"]; related := ["Vedanta"; "Vedan"];
     popularity := Some "common" |}.

Definition Vasu : NameRecord :=
  {| id := "3"; name := "Vasu"; gender := "boy";
     scripts := {[ "Latin" := "Vasu"; "Devanagari" := "वसु" ]};
     syllables := 2; phoneticStart := "Va"; deityAffinity := "Vishnu";
     sources := ["Sahasranama"; "Puranas"];
     meaning := "Wealthy; one of the eight Vasus; an epithet of Vishnu";
     language := "Sanskrit"; regionTags := ["North"; "South"];
     modernity := 3; globalPronounce := 4;
     nicknames := ["Vas"]; related := ["Vasudev"; "Vasuman"];
     popularity := Some "uncommon" |}.

Definition Hriday : NameRecord :=
  {| id := "4"; name := "Hriday"; gender := "boy";
     scripts := {[ "Latin" := "Hriday"; "Devanagari" := "हृदय" ]};
     syllables := 2; phoneticStart := "Hri/Hr"; deityAffinity := "None";
     sources := ["Sanskrit"];
     meaning := "Heart; core";
     language := "Sanskrit"; regionTags := ["Pan-India"];
     modernity := 3; globalPronounce := 2;
     nicknames := ["Hri"]; related := ["Hridaya"];
     popularity := Some "uncommon" |}.

Definition Harish : NameRecord :=
  {| id := "5"; name := "Harish"; gender := "boy";
     scripts := {[ "Latin" := "Harish"; "Devanagari" := "हरीश" ]};
     syllables := 2; phoneticStart := "Ha"; deityAffinity := "Vishnu";
     sources := ["Puranas"];
     meaning := "Lord Vishnu; lord of Hari";
     language := "Sanskrit"; regionTags := ["Pan-India"];
     modernity := 2; globalPronounce := 4;
     nicknames := ["Hari"]; related := ["Harishchandra"; "Haridas"];
     popularity := Some "common" |}.

Definition MOCK_NAMES : list NameRecord := [Vihaan; Vedant; Vasu; Hriday; Harish].

(** ** The Name Matcher *)

(** The six stages of [searchNames], one per source line, each mapping the
    running array [out] to the next one. *)

(** [out.filter(n => n.gender === (filters.gender || n.gender))] *)
Definition genderStage (filters : WishFilters) (out : list NameRecord) : list NameRecord :=
  List.filter (fun n => strictEqStr (gender n) (jsOr (field filters "gender") (JStr (gender n)))) out.

(** [if (filters.syllables) out = out.filter(n => n.syllables === filters.syllables)] *)
Definition syllablesStage (filters : WishFilters) (out : list NameRecord) : list NameRecord :=
  if truthy (field filters "syllables")
  then List.filter (fun n => strictEqNum (syllables n) (field filters "syllables")) out
  else out.

(** [if (filters.deity && filters.deity !== "None") out = out.filter(n =>
      n.deityAffinity === filters.deity || n.deityAffinity === "Multiple")] *)
Definition deityStage (filters : WishFilters) (out : list NameRecord) : list NameRecord :=
  if truthy (field filters "deity") && negb (strictEqStr "None" (field filters "deity"))
  then List.filter (fun n => strictEqStr (deityAffinity n) (field filters "deity")
                             || String.eqb (deityAffinity n) "Multiple") out
  else out.

(** [if (filters.sources && filters.sources.length) out = out.filter(n =>
      n.sources.some(s => filters.sources!.includes(s)))] *)
Definition sourcesStage (filters : WishFilters) (out : list NameRecord) : Completion (list NameRecord) :=
  if truthy (field filters "sources") && truthy (lengthOf (field filters "sources"))
  then filterM (fun n => someM (fun s => callIncludes (field filters "sources") s) (sources n)) out
  else Normal out.

(** [if (filters.startLetters?.length) out = out.filter(n =>
      filters.startLetters!.some(s => n.name.toLowerCase().startsWith(s.toLowerCase())))] *)
Definition startLettersStage (filters : WishFilters) (out : list NameRecord) : Completion (list NameRecord) :=
  if truthy (lengthOf (field filters "startLetters"))
  then filterM (fun n => callSome (field filters "startLetters") (fun s =>
                  let lhs := toLowerCase (name n) in
                  p ← callToLowerCase s; Normal (startsWith lhs p))) out
  else Normal out.

(** [if (filters.startSounds?.length) out = out.filter(n =>
      filters.startSounds!.some(s => n.phoneticStart.toLowerCase().startsWith(s.toLowerCase())))] *)
Definition startSoundsStage (filters : WishFilters) (out : list NameRecord) : Completion (list NameRecord) :=
  if truthy (lengthOf (field filters "startSounds"))
  then filterM (fun n => callSome (field filters "startSounds") (fun s =>
                  let lhs := toLowerCase (phoneticStart n) in
                  p ← callToLowerCase s; Normal (startsWith lhs p))) out
  else Normal out.

(** The body of [searchNames] over an arbitrary corpus; [out.slice(0, 40)]
    is [take 40]. *)
Definition searchNamesIn (corpus : list NameRecord) (filters : WishFilters) : Completion (list NameRecord) :=
  let out := genderStage filters corpus in
  let out := syllablesStage filters out in
  let out := deityStage filters out in
  out ← sourcesStage filters out;
  out ← startLettersStage filters out;
  out ← startSoundsStage filters out;
  Normal (take 40 out).

Definition searchNames (filters : WishFilters) : Completion (list NameRecord) :=
  searchNamesIn MOCK_NAMES filters.

(** ** The Filter Resolver *)

(** The own enumerable properties that [{ ...v }] copies: those of an
    object; the indexed elements of an array or of a string; nothing for
    [null], [undefined], booleans and numbers. *)
Definition ownProps (v : JsVal) : gmap string JsVal :=
  match v with
  | JObj o => o
  | JArr xs => list_to_map (imap (fun i x => (pretty i, x)) xs)
  | JStr s => list_to_map (imap (fun i c => (pretty i, JStr (String c ""))) (list_ascii_of_string s))
  | _ => ∅
  end.

(** [{ ...filters, ...parsed }]: later spreads overwrite earlier ones, one
    top-level property at a time. *)
Definition mergeFilters (filters : WishFilters) (parsed : JsVal) : WishFilters :=
  ownProps parsed ∪ filters.

Record Astro : Type := {
  nakshatra : string;
  pada : Z;
  startSounds : list string
}.

(** The placeholder of the source: the birth descriptor is not consulted. *)
Definition getNakshatra (birth : JsVal) : Astro :=
  let sounds := ["Hu"; "He"; "Ho"; "Da"] in
  {| nakshatra := "Pushya"; pada := 3; startSounds := sounds |}.

(** [merged.birth?.date && merged.birth?.time && merged.birth?.place] as a
    condition. *)
Definition birthComplete (merged : WishFilters) : bool :=
  truthy (optField (field merged "birth") "date")
  && truthy (optField (field merged "birth") "time")
  && truthy (optField (field merged "birth") "place").

(** [merged.startSounds = astro.startSounds] *)
Definition setStartSounds (astro : Astro) (merged : WishFilters) : WishFilters :=
  <["startSounds" := JArr (JStr <$> startSounds astro)]> merged.

(** Lines 346-350 of [runParseAndSearch]: the filter handed to
    [searchNames] and then stored by [setFilters]. *)
Definition resolve (filters : WishFilters) (parsed : JsVal) : WishFilters :=
  let merged := mergeFilters filters parsed in
  if truthy (field merged "vedicMode") && birthComplete merged
  then setStartSounds (getNakshatra (field merged "birth")) merged
  else merged.

(** Lines 362-366 of [onSearch]: the copy [{ ...filters }], enriched when
    the Vedic tab is the selected one. *)
Definition resolveOnSearch (tab : string) (filters : WishFilters) : WishFilters :=
  let merged := filters in
  if String.eqb tab "vedic" && birthComplete merged
  then setStartSounds (getNakshatra (field merged "birth")) merged
  else merged.

(** ** The page's state and its two search handlers *)

Record AppState : Type := {
  tab : string;
  wishes : string;
  loading : bool;
  filters : WishFilters;
  results : list NameRecord;
  compareIds : list string
}.

Definition setLoading (b : bool) (st : AppState) : AppState :=
  {| tab := tab st; wishes := wishes st; loading := b; filters := filters st;
     results := results st; compareIds := compareIds st |}.

Definition setFilters (f : WishFilters) (st : AppState) : AppState :=
  {| tab := tab st; wishes := wishes st; loading := loading st; filters := f;
     results := results st; compareIds := compareIds st |}.

Definition setResults (r : list NameRecord) (st : AppState) : AppState :=
  {| tab := tab st; wishes := wishes st; loading := loading st; filters := filters st;
     results := r; compareIds := compareIds st |}.

(** [useState] initial values. *)
Definition initialState : AppState :=
  {| tab := "quick"; wishes := ""; loading := false;
     filters := {[ "gender" := JStr "boy"; "script" := JStr "Latin"; "vibe" := JStr "any";
                   "vedicMode" := JBool false; "lengthMax" := JNull;
                   "globalPronounce" := JBool true ]};
     results := []; compareIds := [] |}.

(** [try { body } finally { setLoading(false) }]: the flag is cleared on
    both exits and an exception keeps propagating. *)
Definition tryFinallyLoading (st : AppState) (body : Completion AppState) : AppState * Completion unit :=
  match body with
  | Normal st' => (setLoading false st', Normal tt)
  | Throw e => (setLoading false st, Throw e)
  end.

Section Pipeline.

(** The wish-parsing collaborator as the page sees it: [fetch] followed by
    [r.json()], which either yields a JSON value or rejects. *)
Variable parseWishesLLM : string → Completion JsVal.

Definition runParseAndSearch (st : AppState) : AppState * Completion unit :=
  let st := setLoading true st in
  tryFinallyLoading st (
    parsed ← parseWishesLLM (wishes st);
    let merged := resolve (filters st) parsed in
    r ← searchNames merged;
    let st := setFilters merged st in
    let st := setResults r st in
    Normal st).

End Pipeline.

Definition onSearch (st : AppState) : AppState * Completion unit :=
  let st := setLoading true st in
  tryFinallyLoading st (
    let merged := resolveOnSearch (tab st) (filters st) in
    r ← searchNames merged;
    let st := setResults r st in
    Normal st).

(** ** The parse route *)

Section Route.

(** [JSON.parse], with [None] for a thrown [SyntaxError]. *)
Variable JSON_parse : string → option JsVal.

(** [POST], given the outcome of [client.responses.create] as the
    response's [output_text]. *)
Definition POST (response : Completion (option string)) : Completion JsVal :=
  output_text ← response;
  let content := default "" output_text in
  let parsed :=
    match JSON_parse content with
    | Some v => v
    | None => JObj {[ "rawText" := JStr content ]}
    end in
  Normal parsed.

End Route.

(** ** The contract of the matcher, on typed views of the filter *)

Definition asStr (v : JsVal) : option string :=
  match v with
  | JStr s => Some s
  | _ => None
  end.

(** The entries of a list-typed filter field; no entries when the field is
    absent or is not an array. *)
Definition stringsOf (v : JsVal) : list string :=
  match v with
  | JArr xs => omap asStr xs
  | _ => []
  end.

(** [string[] | undefined], with [null] tolerated as JSON's way of leaving a
    key out. *)
Definition optStringArray (v : JsVal) : bool :=
  match v with
  | JUndefined | JNull => true
  | JArr xs => forallb (fun x => bool_decide (is_Some (asStr x))) xs
  | _ => false
  end.

(** The list-typed fields that [searchNames] reads have their declared
    type. *)
Definition wellTyped (F : WishFilters) : bool :=
  optStringArray (field F "sources")
  && optStringArray (field F "startLetters")
  && optStringArray (field F "startSounds").

(** The six match rules, each holding vacuously while its constraint is
    inactive.  Activity is what the code tests: a truthy [gender],
    [syllables] and [deity] (and a [deity] other than ["None"]), a non-empty
    list for the other three. *)
Definition genderOk (F : WishFilters) (n : NameRecord) : bool :=
  if truthy (field F "gender") then strictEqStr (gender n) (field F "gender") else true.

Definition syllablesOk (F : WishFilters) (n : NameRecord) : bool :=
  if truthy (field F "syllables") then strictEqNum (syllables n) (field F "syllables") else true.

Definition deityActive (F : WishFilters) : bool :=
  truthy (field F "deity") && negb (strictEqStr "None" (field F "deity")).

Definition deityOk (F : WishFilters) (n : NameRecord) : bool :=
  if deityActive F
  then strictEqStr (deityAffinity n) (field F "deity") || String.eqb (deityAffinity n) "Multiple"
  else true.

Definition sourcesOk (F : WishFilters) (n : NameRecord) : bool :=
  match stringsOf (field F "sources") with
  | [] => true
  | l => existsb (fun s => existsb (String.eqb s) l) (sources n)
  end.

Definition startsWithAny (subject : string) (l : list string) : bool :=
  match l with
  | [] => true
  | _ => existsb (fun s => startsWith (toLowerCase subject) (toLowerCase s)) l
  end.

Definition startLettersOk (F : WishFilters) (n : NameRecord) : bool :=
  startsWithAny (name n) (stringsOf (field F "startLetters")).

Definition startSoundsOk (F : WishFilters) (n : NameRecord) : bool :=
  startsWithAny (phoneticStart n) (stringsOf (field F "startSounds")).

(** A record satisfies every active constraint of the filter. *)
Definition matches (F : WishFilters) (n : NameRecord) : bool :=
  genderOk F n && syllablesOk F n && deityOk F n
  && sourcesOk F n && startLettersOk F n && startSoundsOk F n.

(** The properties of the filter that [searchNames] reads. *)
Definition readKeys : list string :=
  ["gender"; "syllables"; "deity"; "sources"; "startLetters"; "startSounds"].

(** ** The compare shortlist *)

Definition setCompareIds (f : list string → list string) (st : AppState) : AppState :=
  {| tab := tab st; wishes := wishes st; loading := loading st; filters := filters st;
     results := results st; compareIds := f (compareIds st) |}.

(** [l.includes(s)] and [l.filter(x => x !== s)] on an array of strings. *)
Definition includesStr (l : list string) (s : string) : bool :=
  existsb (String.eqb s) l.

Definition withoutStr (l : list string) (s : string) : list string :=
  List.filter (fun x => negb (String.eqb x s)) l.

(** [setCompareIds(prev => prev.includes(id) ? prev.filter(x => x !== id)
      : [...prev, id])] *)
Definition toggleCompare (rid : string) (st : AppState) : AppState :=
  setCompareIds (fun prev => if includesStr prev rid then withoutStr prev rid
                             else (prev ++ [rid])%list) st.

(** The drawer's [onRemove]: [setCompareIds(prev => prev.filter(x => x !== id))] *)
Definition onRemove (rid : string) (st : AppState) : AppState :=
  setCompareIds (fun prev => withoutStr prev rid) st.

(** [results.filter(r => compareIds.includes(r.id))] *)
Definition compareItems (st : AppState) : list NameRecord :=
  List.filter (fun r => includesStr (compareIds st) (id r)) (results st).

(** ** The text of the start-letters input *)

(** [s.split(",")] for a one-character separator. *)
Fixpoint jsSplit (sep : ascii) (s : string) : list string :=
  match s with
  | EmptyString => [EmptyString]
  | String c s' =>
      if Ascii.eqb c sep then EmptyString :: jsSplit sep s'
      else match jsSplit sep s' with
           | h :: t => String c h :: t
           | [] => [String c EmptyString]
           end
  end.

(** ECMAScript's WhiteSpace and LineTerminator code points, recognised on the
    bytes of their UTF-8 encoding (a string of the page is modelled by its
    UTF-8 bytes): one byte for U+0009..U+000D and U+0020; two bytes, C2 A0,
    for U+00A0; three bytes for U+1680 (E1 9A 80), U+2000..U+200A
    (E2 80 80..8A), U+2028, U+2029, U+202F (E2 80 A8, A9, AF), U+205F
    (E2 81 9F), U+3000 (E3 80 80) and U+FEFF (EF BB BF). *)
Definition isSpace1 (a : ascii) : bool :=
  let x := nat_of_ascii a in
  ((9 <=? x)%nat && (x <=? 13)%nat) || (x =? 32)%nat.

Definition isSpace2 (a b : ascii) : bool :=
  (nat_of_ascii a =? 194)%nat && (nat_of_ascii b =? 160)%nat.

Definition isSpace3 (a b c : ascii) : bool :=
  let x := nat_of_ascii a in
  let y := nat_of_ascii b in
  let z := nat_of_ascii c in
  ((x =? 225)%nat && (y =? 154)%nat && (z =? 128)%nat)
  || ((x =? 226)%nat && (y =? 128)%nat
      && (((128 <=? z)%nat && (z <=? 138)%nat)
          || (z =? 168)%nat || (z =? 169)%nat || (z =? 175)%nat))
  || ((x =? 226)%nat && (y =? 129)%nat && (z =? 159)%nat)
  || ((x =? 227)%nat && (y =? 128)%nat && (z =? 128)%nat)
  || ((x =? 239)%nat && (y =? 187)%nat && (z =? 191)%nat).

(** The number of bytes of the white-space character a text starts with,
    0 when it starts with none.  With [back] the text is read reversed, so
    the bytes of a character come last byte first. *)
Definition spaceWidth (back : bool) (l : list ascii) : nat :=
  match l with
  | [] => 0
  | a :: l1 =>
      if isSpace1 a then 1
      else match l1 with
           | [] => 0
           | b :: l2 =>
               if (if back then isSpace2 b a else isSpace2 a b) then 2
               else match l2 with
                    | [] => 0
                    | c :: _ => if (if back then isSpace3 c b a else isSpace3 a b c)
                                then 3 else 0
                    end
           end
  end.

(** The text without the white-space characters it starts with. *)
Fixpoint dropSpaces (back : bool) (l : list ascii) : list ascii :=
  match l with
  | [] => []
  | a :: l1 =>
      if isSpace1 a then dropSpaces back l1
      else match l1 with
           | [] => l
           | b :: l2 =>
               if (if back then isSpace2 b a else isSpace2 a b) then dropSpaces back l2
               else match l2 with
                    | [] => l
                    | c :: l3 => if (if back then isSpace3 c b a else isSpace3 a b c)
                                 then dropSpaces back l3 else l
                    end
           end
  end.

Definition trimStart (l : list ascii) : list ascii := dropSpaces false l.

Definition trimEnd (l : list ascii) : list ascii :=
  List.rev (dropSpaces true (List.rev l)).

(** [s.trim()] *)
Definition jsTrim (s : string) : string :=
  string_of_list_ascii (trimEnd (trimStart (list_ascii_of_string s))).

(** [l.join(sep)] on an array of strings. *)
Fixpoint jsJoin (sep : string) (l : list string) : string :=
  match l with
  | [] => EmptyString
  | [x] => x
  | x :: l' => x ++ sep ++ jsJoin sep l'
  end.

(** [value.split(",").map(x => x.trim()).filter(Boolean)] *)
Definition parseStartLetters (value : string) : list string :=
  List.filter (fun x => negb (String.eqb x "")) (jsTrim <$> jsSplit "," value).

(** An entry as the start-letters input stores it: not empty, without a
    comma, without white space at either end. *)
Definition cleanEntry (x : string) : Prop :=
  x ≠ "" ∧ jsTrim x = x ∧ jsSplit "," x = [x].

(** ** The quick-filter and birth controls *)

(** [v ?? w] *)
Definition jsNullish (v w : JsVal) : JsVal :=
  match v with
  | JUndefined | JNull => w
  | _ => v
  end.

(** [v?.[0]] *)
Definition optIndex0 (v : JsVal) : JsVal :=
  match v with
  | JArr xs => default JUndefined (head xs)
  | JStr (String c _) => JStr (String c EmptyString)
  | JObj o => field o "0"
  | _ => JUndefined
  end.

(** What the primary-source select shows: [filters.sources?.[0] ?? "None"]. *)
Definition sourceValue (s : WishFilters) : JsVal :=
  jsNullish (optIndex0 (field s "sources")) (JStr "None").

(** [{ ...s, gender: v }], [{ ...s, script: v }], [{ ...s, deity: v }] *)
Definition genderChange (v : string) (s : WishFilters) : WishFilters :=
  <["gender" := JStr v]> s.

Definition scriptChange (v : string) (s : WishFilters) : WishFilters :=
  <["script" := JStr v]> s.

Definition deityChange (v : string) (s : WishFilters) : WishFilters :=
  <["deity" := JStr v]> s.

(** [{ ...s, sources: v === "None" ? [] : [v] }] *)
Definition sourceChange (v : string) (s : WishFilters) : WishFilters :=
  <["sources" := if String.eqb v "None" then JArr [] else JArr [JStr v]]> s.

(** [{ ...s, startLetters: e.target.value.split(",").map(...).filter(Boolean) }] *)
Definition startLettersChange (value : string) (s : WishFilters) : WishFilters :=
  <["startLetters" := JArr (JStr <$> parseStartLetters value)]> s.

(** [{ ...s, globalPronounce: v }] *)
Definition globalPronounceChange (v : bool) (s : WishFilters) : WishFilters :=
  <["globalPronounce" := JBool v]> s.

(** [{ ...s, lengthMax: v[0] === 0 ? null : v[0] }], given the slider's
    [v[0]]. *)
Definition lengthMaxChange (v0 : Z) (s : WishFilters) : WishFilters :=
  <["lengthMax" := if (v0 =? 0)%Z then JNull else JNum v0]> s.

(** The three birth inputs,
    [{ ...s, vedicMode: true, birth: { ...(s.birth || {}), k: e.target.value } }]
    with [k] one of [date], [time], [place]. *)
Definition birthFieldChange (k : string) (v : string) (s : WishFilters) : WishFilters :=
  <["birth" := JObj (<[k := JStr v]> (ownProps (jsOr (field s "birth") (JObj ∅))))]>
    (<["vedicMode" := JBool true]> s).

Definition dateChange : string → WishFilters → WishFilters := birthFieldChange "date".
Definition timeChange : string → WishFilters → WishFilters := birthFieldChange "time".
Definition placeChange : string → WishFilters → WishFilters := birthFieldChange "place".

Definition setTab (v : string) (st : AppState) : AppState :=
  {| tab := v; wishes := wishes st; loading := loading st; filters := filters st;
     results := results st; compareIds := compareIds st |}.

Definition setWishes (v : string) (st : AppState) : AppState :=
  {| tab := tab st; wishes := v; loading := loading st; filters := filters st;
     results := results st; compareIds := compareIds st |}.

Section Controls.

(** [Number(v)] on the value of a select item. *)
Variable Number : string → Z.

(** [{ ...s, syllables: v === "any" ? undefined : Number(v) }] *)
Definition syllablesChange (v : string) (s : WishFilters) : WishFilters :=
  <["syllables" := if String.eqb v "any" then JUndefined else JNum (Number v)]> s.

(** The synchronous interactions of the page: every control that calls a
    state setter directly, each with the value the control hands over. *)
Inductive UiEvent : Type :=
| WishesInput (v : string)
| TabSelect (v : string)
| GenderSelect (v : string)
| SyllablesSelect (v : string)
| ScriptSelect (v : string)
| DeitySelect (v : string)
| SourceSelect (v : string)
| StartLettersInput (value : string)
| GlobalPronounceSwitch (v : bool)
| LengthMaxSlider (v0 : Z)
| DateInput (v : string)
| TimeInput (v : string)
| PlaceInput (v : string)
| CompareClick (rid : string)
| RemoveClick (rid : string).

Definition handle (ev : UiEvent) (st : AppState) : AppState :=
  match ev with
  | WishesInput v => setWishes v st
  | TabSelect v => setTab v st
  | GenderSelect v => setFilters (genderChange v (filters st)) st
  | SyllablesSelect v => setFilters (syllablesChange v (filters st)) st
  | ScriptSelect v => setFilters (scriptChange v (filters st)) st
  | DeitySelect v => setFilters (deityChange v (filters st)) st
  | SourceSelect v => setFilters (sourceChange v (filters st)) st
  | StartLettersInput value => setFilters (startLettersChange value (filters st)) st
  | GlobalPronounceSwitch v => setFilters (globalPronounceChange v (filters st)) st
  | LengthMaxSlider v0 => setFilters (lengthMaxChange v0 (filters st)) st
  | DateInput v => setFilters (dateChange v (filters st)) st
  | TimeInput v => setFilters (timeChange v (filters st)) st
  | PlaceInput v => setFilters (placeChange v (filters st)) st
  | CompareClick rid => toggleCompare rid st
  | RemoveClick rid => onRemove rid st
  end.

(** The state after a sequence of interactions, oldest first. *)
Definition handleAll (evs : list UiEvent) (st : AppState) : AppState :=
  foldl (fun st ev => handle ev st) st evs.

End Controls.

(** * Properties *)

(** ** The completion monad and the array methods *)

Lemma filterM_pure {A : Type} (cb : A → Completion bool) (p : A → bool) (l : list A) :
  (∀ x, In x l → cb x = Normal (p x)) →
  filterM cb l = Normal (List.filter p l).
Proof.
  induction l as [|x l IH]; intros Hcb; simpl; [reflexivity|].
  rewrite (Hcb x) by (left; reflexivity). simpl.
  rewrite IH by (intros y Hy; apply Hcb; right; exact Hy). simpl.
  destruct (p x); reflexivity.
Qed.

Lemma someM_pure {A : Type} (cb : A → Completion bool) (p : A → bool) (l : list A) :
  (∀ x, In x l → cb x = Normal (p x)) →
  someM cb l = Normal (existsb p l).
Proof.
  induction l as [|x l IH]; intros Hcb; simpl; [reflexivity|].
  rewrite (Hcb x) by (left; reflexivity). simpl.
  destruct (p x); simpl; [reflexivity|].
  apply IH. intros y Hy. apply Hcb. right. exact Hy.
Qed.

(** What a normally completed [filter] kept: members of the input on which
    the callback answered [true]. *)
Lemma filterM_In {A : Type} (cb : A → Completion bool) (l out : list A) (x : A) :
  filterM cb l = Normal out → In x out → In x l ∧ cb x = Normal true.
Proof.
  revert out. induction l as [|y l IH]; intros out; simpl.
  - intros [= <-] [].
  - destruct (cb y) as [b|e] eqn:Hy; simpl; [|discriminate].
    destruct (filterM cb l) as [rest|e] eqn:Hl; simpl; [|discriminate].
    intros [= <-] Hin. destruct b.
    + destruct Hin as [<- | Hin]; [split; [left; reflexivity | exact Hy]|].
      destruct (IH rest eq_refl Hin) as [H1 H2]. split; [right; exact H1 | exact H2].
    + destruct (IH rest eq_refl Hin) as [H1 H2]. split; [right; exact H1 | exact H2].
Qed.

Lemma someM_true {A : Type} (cb : A → Completion bool) (l : list A) :
  someM cb l = Normal true → ∃ x, In x l ∧ cb x = Normal true.
Proof.
  induction l as [|y l IH]; simpl; [discriminate|].
  destruct (cb y) as [[|]|e] eqn:Hy; simpl.
  - intros _. exists y. split; [left; reflexivity | exact Hy].
  - intros H. destruct (IH H) as (x & Hx & Hc). exists x. split; [right; exact Hx | exact Hc].
  - discriminate.
Qed.

Lemma filter_all {A : Type} (p : A → bool) (l : list A) :
  (∀ x, In x l → p x = true) → List.filter p l = l.
Proof.
  induction l as [|x l IH]; intros H; simpl; [reflexivity|].
  rewrite (H x) by (left; reflexivity). f_equal. apply IH.
  intros y Hy. apply H. right. exact Hy.
Qed.

Lemma filter_filter {A : Type} (p q : A → bool) (l : list A) :
  List.filter q (List.filter p l) = List.filter (fun x => p x && q x) l.
Proof.
  induction l as [|x l IH]; simpl; [reflexivity|].
  destruct (p x); simpl; [destruct (q x); simpl; rewrite IH; reflexivity | exact IH].
Qed.

(** ** The stages as plain filters *)

Lemma strictEqStr_true (s : string) (v : JsVal) :
  strictEqStr s v = true ↔ v = JStr s.
Proof.
  destruct v; simpl; try (split; [discriminate | intros [=]]).
  rewrite String.eqb_eq. split; [intros ->; reflexivity | intros [= ->]; reflexivity].
Qed.

Lemma strictEqNum_true (n : Z) (v : JsVal) :
  strictEqNum n v = true ↔ v = JNum n.
Proof.
  destruct v; simpl; try (split; [discriminate | intros [=]]).
  rewrite Z.eqb_eq. split; [intros ->; reflexivity | intros [= ->]; reflexivity].
Qed.

Lemma genderStage_filter (F : WishFilters) (out : list NameRecord) :
  genderStage F out = List.filter (genderOk F) out.
Proof.
  unfold genderStage. apply List.filter_ext. intros n.
  unfold genderOk, jsOr. destruct (truthy (field F "gender")); [reflexivity|].
  simpl. apply String.eqb_refl.
Qed.

Lemma syllablesStage_filter (F : WishFilters) (out : list NameRecord) :
  syllablesStage F out = List.filter (syllablesOk F) out.
Proof.
  unfold syllablesStage, syllablesOk. destruct (truthy (field F "syllables")); [reflexivity|].
  symmetry. apply filter_all. reflexivity.
Qed.

Lemma deityStage_filter (F : WishFilters) (out : list NameRecord) :
  deityStage F out = List.filter (deityOk F) out.
Proof.
  unfold deityStage, deityOk, deityActive.
  destruct (truthy (field F "deity") && negb (strictEqStr "None" (field F "deity")));
    [reflexivity|].
  symmetry. apply filter_all. reflexivity.
Qed.

Lemma existsb_strictEqStr (s : string) (xs : list JsVal) :
  existsb (strictEqStr s) xs = existsb (String.eqb s) (omap asStr xs).
Proof.
  induction xs as [|x xs IH]; simpl; [reflexivity|].
  destruct x; simpl; rewrite IH; reflexivity.
Qed.

Lemma omap_asStr_nil (xs : list JsVal) :
  forallb (fun x => bool_decide (is_Some (asStr x))) xs = true →
  omap asStr xs = [] → xs = [].
Proof.
  destruct xs as [|x xs]; [reflexivity|]. simpl.
  destruct x; simpl; discriminate.
Qed.

Lemma truthy_length (xs : list JsVal) :
  truthy (lengthOf (JArr xs)) = match xs with [] => false | _ => true end.
Proof. destruct xs; reflexivity. Qed.

Lemma sourcesStage_typed (F : WishFilters) (out : list NameRecord) :
  optStringArray (field F "sources") = true →
  sourcesStage F out = Normal (List.filter (sourcesOk F) out).
Proof.
  unfold sourcesStage, sourcesOk.
  destruct (field F "sources") as [| | | | |xs|] eqn:Hsrc; intros Hty;
    try discriminate Hty;
    try (cbn [truthy andb stringsOf]; rewrite filter_all by reflexivity; reflexivity).
  rewrite truthy_length. cbn [truthy andb stringsOf] in *.
  destruct xs as [|x xs]; [rewrite filter_all by reflexivity; reflexivity|].
  destruct (omap asStr (x :: xs)) as [|t l] eqn:Hl;
    [apply omap_asStr_nil in Hl; [discriminate | exact Hty]|].
  apply filterM_pure. intros n _.
  apply someM_pure. intros s _. cbn [callIncludes].
  rewrite existsb_strictEqStr, Hl. reflexivity.
Qed.

Lemma someM_startsWith (lhs : string) (xs : list JsVal) :
  forallb (fun x => bool_decide (is_Some (asStr x))) xs = true →
  someM (fun s => p ← callToLowerCase s; Normal (startsWith lhs p)) xs
  = Normal (existsb (fun s => startsWith lhs (toLowerCase s)) (omap asStr xs)).
Proof.
  induction xs as [|x xs IH]; simpl; [reflexivity|].
  destruct x; simpl; try discriminate. intros Hty.
  destruct (startsWith lhs (toLowerCase s)); simpl; [reflexivity|].
  apply IH, Hty.
Qed.

(** The two prefix stages share their shape: [proj] is [name] for the start
    letters and [phoneticStart] for the start sounds. *)
Lemma prefixStage_typed (v : JsVal) (proj : NameRecord → string) (out : list NameRecord) :
  optStringArray v = true →
  (if truthy (lengthOf v)
   then filterM (fun n => callSome v (fun s =>
                   let lhs := toLowerCase (proj n) in
                   p ← callToLowerCase s; Normal (startsWith lhs p))) out
   else Normal out)
  = Normal (List.filter (fun n => startsWithAny (proj n) (stringsOf v)) out).
Proof.
  destruct v as [| | | | |xs|]; intros Hty; try discriminate Hty;
    try (cbn [truthy lengthOf stringsOf startsWithAny];
         rewrite filter_all by reflexivity; reflexivity).
  rewrite truthy_length. cbn [optStringArray stringsOf] in *.
  destruct xs as [|x xs]; [rewrite filter_all by reflexivity; reflexivity|].
  apply filterM_pure. intros n _. cbv zeta. cbn [callSome].
  rewrite someM_startsWith by exact Hty. unfold startsWithAny.
  destruct (omap asStr (x :: xs)) as [|t l] eqn:Hl;
    [apply omap_asStr_nil in Hl; [discriminate | exact Hty]|].
  reflexivity.
Qed.

Lemma startLettersStage_typed (F : WishFilters) (out : list NameRecord) :
  optStringArray (field F "startLetters") = true →
  startLettersStage F out = Normal (List.filter (startLettersOk F) out).
Proof. apply (prefixStage_typed (field F "startLetters") name). Qed.

Lemma startSoundsStage_typed (F : WishFilters) (out : list NameRecord) :
  optStringArray (field F "startSounds") = true →
  startSoundsStage F out = Normal (List.filter (startSoundsOk F) out).
Proof. apply (prefixStage_typed (field F "startSounds") phoneticStart). Qed.

(** On a well-typed filter the search cannot throw, and it is the corpus
    filtered by [matches], cut after forty records. *)
Lemma searchNamesIn_typed (corpus : list NameRecord) (F : WishFilters) :
  wellTyped F = true →
  searchNamesIn corpus F = Normal (take 40 (List.filter (matches F) corpus)).
Proof.
  unfold wellTyped. rewrite !andb_true_iff. intros [[Hs Hl] Hp].
  unfold searchNamesIn.
  rewrite genderStage_filter, syllablesStage_filter, deityStage_filter.
  rewrite (sourcesStage_typed _ _ Hs). simpl.
  rewrite (startLettersStage_typed _ _ Hl). simpl.
  rewrite (startSoundsStage_typed _ _ Hp). simpl.
  rewrite !filter_filter. do 2 f_equal. apply List.filter_ext. intros n.
  unfold matches. rewrite !andb_assoc. reflexivity.
Qed.

(** ** What a normally completed stage kept *)

Lemma sourcesStage_sound (F : WishFilters) (l out : list NameRecord) (r : NameRecord) :
  sourcesStage F l = Normal out → In r out →
  In r l ∧ ∀ xs, field F "sources" = JArr xs → xs ≠ [] →
           ∃ s, In s (sources r) ∧ In (JStr s) xs.
Proof.
  unfold sourcesStage. intros Hrun Hin. split.
  - destruct (truthy (field F "sources") && truthy (lengthOf (field F "sources"))).
    + apply (filterM_In _ _ _ _ Hrun Hin).
    + injection Hrun as <-. exact Hin.
  - intros xs Hxs Hne. rewrite Hxs, truthy_length in Hrun.
    destruct xs as [|x xs]; [congruence|]. cbn [truthy andb] in Hrun.
    destruct (filterM_In _ _ _ _ Hrun Hin) as [_ Hcb].
    apply someM_true in Hcb. destruct Hcb as (s & Hs & Hinc).
    exists s. split; [exact Hs|]. cbn [callIncludes] in Hinc.
    injection Hinc as Hinc.
    change (existsb (strictEqStr s) (x :: xs) = true) in Hinc.
    apply existsb_exists in Hinc.
    destruct Hinc as (v & Hv & Heq). apply strictEqStr_true in Heq. subst v. exact Hv.
Qed.

Lemma prefixStage_sound (v : JsVal) (proj : NameRecord → string)
    (l out : list NameRecord) (r : NameRecord) :
  (if truthy (lengthOf v)
   then filterM (fun n => callSome v (fun s =>
                   let lhs := toLowerCase (proj n) in
                   p ← callToLowerCase s; Normal (startsWith lhs p))) l
   else Normal l) = Normal out →
  In r out →
  In r l ∧ ∀ xs, v = JArr xs → xs ≠ [] →
           ∃ s, In (JStr s) xs ∧ startsWith (toLowerCase (proj r)) (toLowerCase s) = true.
Proof.
  intros Hrun Hin. split.
  - destruct (truthy (lengthOf v)).
    + apply (filterM_In _ _ _ _ Hrun Hin).
    + injection Hrun as <-. exact Hin.
  - intros xs -> Hne. rewrite truthy_length in Hrun.
    destruct xs as [|x xs]; [congruence|].
    destruct (filterM_In _ _ _ _ Hrun Hin) as [_ Hcb]. cbn [callSome] in Hcb.
    apply someM_true in Hcb. destruct Hcb as (y & Hy & Hcb).
    destruct y; try discriminate Hcb. exists s. split; [exact Hy|].
    cbv zeta in Hcb. cbn in Hcb. injection Hcb as Hcb. exact Hcb.
Qed.

(** ** The claims about the Name Matcher *)

(** C1, as amended.  Soundness of the Name Matcher: every record that
    [searchNames] returns is a record of the corpus and satisfies each
    active constraint of the filter: its gender equals [F.gender] when that
    is a non-empty string; its syllable count equals [F.syllables] when that
    is a number other than zero; its deity affinity equals [F.deity] or is
    ["Multiple"] when [F.deity] is a non-empty string other than ["None"];
    its sources share a tag with [F.sources] when that is a non-empty array;
    its lower-cased name starts with the lower-cased form of some entry of
    [F.startLetters], and its lower-cased phonetic start with that of some
    entry of [F.startSounds], when those are non-empty arrays.  Stated for
    any corpus; [searchNames] is the instance [MOCK_NAMES]. *)
Theorem searchNames_sound (corpus : list NameRecord) (F : WishFilters)
    (out : list NameRecord) (r : NameRecord) :
  searchNamesIn corpus F = Normal out →
  In r out →
  In r corpus
  ∧ (∀ g, field F "gender" = JStr g → g ≠ "" → gender r = g)
  ∧ (∀ n, field F "syllables" = JNum n → n ≠ 0%Z → syllables r = n)
  ∧ (∀ d, field F "deity" = JStr d → d ≠ "" → d ≠ "None" →
       deityAffinity r = d ∨ deityAffinity r = "Multiple")
  ∧ (∀ l, field F "sources" = JArr l → l ≠ [] →
       ∃ s, In s (sources r) ∧ In (JStr s) l)
  ∧ (∀ l, field F "startLetters" = JArr l → l ≠ [] →
       ∃ s, In (JStr s) l ∧ startsWith (toLowerCase (name r)) (toLowerCase s) = true)
  ∧ (∀ l, field F "startSounds" = JArr l → l ≠ [] →
       ∃ s, In (JStr s) l ∧ startsWith (toLowerCase (phoneticStart r)) (toLowerCase s) = true).
Proof.
  unfold searchNamesIn. intros Hrun Hin.
  destruct (sourcesStage F _) as [o4|e] eqn:H4; [|discriminate Hrun].
  cbn [mbind Completion_bind] in Hrun.
  destruct (startLettersStage F o4) as [o5|e] eqn:H5; [|discriminate Hrun].
  cbn [mbind Completion_bind] in Hrun.
  destruct (startSoundsStage F o5) as [o6|e] eqn:H6; [|discriminate Hrun].
  cbn [mbind Completion_bind] in Hrun. injection Hrun as <-.
  assert (In r o6) as Hin6.
  { apply list_elem_of_In. apply list_elem_of_In, elem_of_take in Hin.
    destruct Hin as (i & Hi & _). apply (list_elem_of_lookup_2 _ _ _ Hi). }
  destruct (prefixStage_sound _ phoneticStart _ _ _ H6 Hin6) as [Hin5 Hsounds].
  destruct (prefixStage_sound _ name _ _ _ H5 Hin5) as [Hin4 Hletters].
  destruct (sourcesStage_sound _ _ _ _ H4 Hin4) as [Hin3 Hsources].
  rewrite deityStage_filter, syllablesStage_filter, genderStage_filter in Hin3.
  apply filter_In in Hin3. destruct Hin3 as [Hin2 Hdeity].
  apply filter_In in Hin2. destruct Hin2 as [Hin1 Hsyll].
  apply filter_In in Hin1. destruct Hin1 as [Hin0 Hgender].
  repeat split; try assumption.
  - intros g Hg Hne. unfold genderOk in Hgender. rewrite Hg in Hgender.
    cbn [truthy strictEqStr] in Hgender.
    apply String.eqb_neq in Hne. rewrite Hne in Hgender.
    apply String.eqb_eq in Hgender. exact Hgender.
  - intros n Hn Hne. unfold syllablesOk in Hsyll. rewrite Hn in Hsyll.
    cbn [truthy strictEqNum] in Hsyll.
    apply Z.eqb_neq in Hne. rewrite Hne in Hsyll.
    apply Z.eqb_eq in Hsyll. exact Hsyll.
  - intros d Hd Hne HNone. unfold deityOk, deityActive in Hdeity.
    rewrite Hd in Hdeity. cbn [truthy strictEqStr] in Hdeity.
    apply String.eqb_neq in Hne. rewrite Hne in Hdeity.
    assert (String.eqb "None" d = false) as HN
      by (apply String.eqb_neq; congruence).
    rewrite HN in Hdeity. cbn [negb andb] in Hdeity.
    apply orb_true_iff in Hdeity.
    destruct Hdeity as [H|H]; apply String.eqb_eq in H; [left | right]; exact H.
Qed.

(** C1, at a filter of each kind of constraint. *)
Lemma searchNames_sound_witness :
  searchNames {[ "gender" := JStr "boy"; "syllables" := JNum 2; "deity" := JStr "Vishnu";
                 "sources" := JArr [JStr "Epics"; JStr "Puranas"];
                 "startLetters" := JArr [JStr "Z"; JStr "VA"] ]} = Normal [Vasu]
  ∧ gender Vasu = "boy" ∧ syllables Vasu = 2%Z.
Proof.
  pose proof (searchNames_sound MOCK_NAMES
    {[ "gender" := JStr "boy"; "syllables" := JNum 2; "deity" := JStr "Vishnu";
       "sources" := JArr [JStr "Epics"; JStr "Puranas"];
       "startLetters" := JArr [JStr "Z"; JStr "VA"] ]} [Vasu] Vasu) as H.
  split; [vm_compute; reflexivity|].
  destruct H as (_ & Hg & Hs & _); [vm_compute; reflexivity | left; reflexivity |].
  split; [apply (Hg "boy"); [reflexivity | discriminate]
         | apply (Hs 2%Z); [reflexivity | discriminate]].
Defined.

(** C1 as first stated fails where the filter carries the syllable count
    zero: the guard [if (filters.syllables)] reads it as "not set", so all
    five two-syllable records come back. *)
Lemma searchNames_zero_syllables_counterexample :
  searchNames {[ "gender" := JStr "boy"; "syllables" := JNum 0 ]} = Normal MOCK_NAMES
  ∧ field {[ "gender" := JStr "boy"; "syllables" := JNum 0 ]} "syllables" = JNum 0
  ∧ In Vihaan MOCK_NAMES
  ∧ syllables Vihaan ≠ 0%Z.
Proof.
  split; [vm_compute; reflexivity|]. split; [reflexivity|].
  split; [left; reflexivity | discriminate].
Qed.

Lemma filter_sublist {A : Type} (p : A → bool) (l : list A) :
  List.filter p l `sublist_of` l.
Proof.
  induction l as [|x l IH]; simpl; [constructor|].
  destruct (p x); [apply sublist_skip | apply sublist_cons]; exact IH.
Qed.

(** C2.  Completeness up to the cap: a corpus record that satisfies every
    active constraint of a (well-typed) filter is returned, unless forty
    satisfying records precede it in the corpus. *)
Theorem searchNames_complete_up_to_cap (corpus : list NameRecord) (F : WishFilters)
    (pre post : list NameRecord) (r : NameRecord) :
  wellTyped F = true →
  corpus = (pre ++ r :: post)%list →
  matches F r = true →
  (length (List.filter (matches F) pre) < 40)%nat →
  ∃ out, searchNamesIn corpus F = Normal out ∧ In r out.
Proof.
  intros Hty -> Hr Hcap. eexists. split; [apply searchNamesIn_typed, Hty|].
  rewrite List.filter_app. cbn [List.filter]. rewrite Hr.
  apply list_elem_of_In, elem_of_take.
  exists (length (List.filter (matches F) pre)). split; [|exact Hcap].
  apply list_lookup_middle. reflexivity.
Qed.

Lemma searchNames_complete_up_to_cap_witness :
  ∃ out, searchNames {[ "gender" := JStr "boy"; "deity" := JStr "Vishnu" ]} = Normal out
         ∧ In Harish out.
Proof.
  apply (searchNames_complete_up_to_cap MOCK_NAMES _ [Vihaan; Vedant; Vasu; Hriday] [] Harish);
    [vm_compute; reflexivity | reflexivity | vm_compute; reflexivity | vm_compute; lia].
Defined.

(** C5, as amended.  Ordering and cap: on a (well-typed) filter the search
    completes normally with the records that satisfy every active
    constraint, in corpus order (the first forty of the corpus filtered by
    [matches]), a constraint being active as the code tests it: a truthy
    [gender], a [syllables] other than 0, a truthy [deity] other than
    ["None"], a non-empty list.  The output never has more than forty
    records, and when more than forty satisfy the filter the rest is dropped
    without an error. *)
Theorem searchNames_order_and_cap (corpus : list NameRecord) (F : WishFilters) :
  wellTyped F = true →
  ∃ out, searchNamesIn corpus F = Normal out
         ∧ out = take 40 (List.filter (matches F) corpus)
         ∧ out `sublist_of` corpus
         ∧ length out = 40 `min` length (List.filter (matches F) corpus)
         ∧ (length out ≤ 40)%nat.
Proof.
  intros Hty. eexists. split; [apply searchNamesIn_typed, Hty|].
  split; [reflexivity|]. split; [|split].
  - etransitivity; [apply sublist_take | apply filter_sublist].
  - apply length_take.
  - rewrite length_take. lia.
Qed.

(** Forty-five satisfying records: forty come back, in order, no error. *)
Lemma searchNames_order_and_cap_witness :
  ∃ out, searchNamesIn (replicate 45 Vihaan) {[ "gender" := JStr "boy" ]} = Normal out
         ∧ out = take 40 (List.filter (matches {[ "gender" := JStr "boy" ]}) (replicate 45 Vihaan))
         ∧ out `sublist_of` replicate 45 Vihaan
         ∧ length out = 40 `min` length (List.filter (matches {[ "gender" := JStr "boy" ]})
                                          (replicate 45 Vihaan))
         ∧ (length out ≤ 40)%nat.
Proof.
  apply (searchNames_order_and_cap (replicate 45 Vihaan) {[ "gender" := JStr "boy" ]}).
  vm_compute. reflexivity.
Defined.

(** C5 as first stated fails where C1 does: with the syllable count 0 in
    the filter the output is not the subset with that syllable count (which
    is empty), but the records that satisfy the other constraints. *)
Lemma searchNames_order_zero_syllables_counterexample :
  searchNames {[ "gender" := JStr "boy"; "syllables" := JNum 0; "deity" := JStr "Vishnu" ]}
  = Normal [Vihaan; Vasu; Harish]
  ∧ List.filter (fun n => (syllables n =? 0)%Z) MOCK_NAMES = []
  ∧ wellTyped {[ "gender" := JStr "boy"; "syllables" := JNum 0; "deity" := JStr "Vishnu" ]}
    = true.
Proof. repeat split; vm_compute; reflexivity. Qed.

(** C8.  Scenario 2: the filter [{gender: "boy", deity: "Vishnu"}] over the
    five-record corpus returns exactly Vihaan, Vasu and Harish, in that
    order: the three records whose deity affinity is ["Vishnu"], no record
    having ["Multiple"]. *)
Theorem scenario_boy_Vishnu :
  searchNames {[ "gender" := JStr "boy"; "deity" := JStr "Vishnu" ]}
    = Normal [Vihaan; Vasu; Harish]
  ∧ name <$> [Vihaan; Vasu; Harish] = ["Vihaan"; "Vasu"; "Harish"]
  ∧ List.filter (fun n => String.eqb (deityAffinity n) "Vishnu") MOCK_NAMES = [Vihaan; Vasu; Harish]
  ∧ List.filter (fun n => String.eqb (deityAffinity n) "Multiple") MOCK_NAMES = [].
Proof. repeat split; vm_compute; reflexivity. Qed.

(** ** Which properties of the filter each stage reads *)

Lemma field_insert_eq (F : WishFilters) (k : string) (v : JsVal) :
  field (<[k := v]> F) k = v.
Proof. unfold field. rewrite lookup_insert_eq. reflexivity. Qed.

Lemma field_insert_ne (F : WishFilters) (k k' : string) (v : JsVal) :
  k ≠ k' → field (<[k := v]> F) k' = field F k'.
Proof. intros Hne. unfold field. rewrite lookup_insert_ne by exact Hne. reflexivity. Qed.

Lemma field_delete_eq (F : WishFilters) (k : string) :
  field (delete k F) k = JUndefined.
Proof. unfold field. rewrite lookup_delete_eq. reflexivity. Qed.

Lemma field_delete_ne (F : WishFilters) (k k' : string) :
  k ≠ k' → field (delete k F) k' = field F k'.
Proof. intros Hne. unfold field. rewrite lookup_delete_ne by exact Hne. reflexivity. Qed.

Lemma genderStage_field (F G : WishFilters) (out : list NameRecord) :
  field F "gender" = field G "gender" → genderStage F out = genderStage G out.
Proof. unfold genderStage. intros ->. reflexivity. Qed.

Lemma syllablesStage_field (F G : WishFilters) (out : list NameRecord) :
  field F "syllables" = field G "syllables" → syllablesStage F out = syllablesStage G out.
Proof. unfold syllablesStage. intros ->. reflexivity. Qed.

Lemma deityStage_field (F G : WishFilters) (out : list NameRecord) :
  field F "deity" = field G "deity" → deityStage F out = deityStage G out.
Proof. unfold deityStage. intros ->. reflexivity. Qed.

Lemma sourcesStage_field (F G : WishFilters) (out : list NameRecord) :
  field F "sources" = field G "sources" → sourcesStage F out = sourcesStage G out.
Proof. unfold sourcesStage. intros ->. reflexivity. Qed.

Lemma startLettersStage_field (F G : WishFilters) (out : list NameRecord) :
  field F "startLetters" = field G "startLetters" →
  startLettersStage F out = startLettersStage G out.
Proof. unfold startLettersStage. intros ->. reflexivity. Qed.

Lemma startSoundsStage_field (F G : WishFilters) (out : list NameRecord) :
  field F "startSounds" = field G "startSounds" →
  startSoundsStage F out = startSoundsStage G out.
Proof. unfold startSoundsStage. intros ->. reflexivity. Qed.

(** Two filters on which every stage acts alike give the same search. *)
Lemma searchNamesIn_stages (corpus : list NameRecord) (F G : WishFilters) :
  (∀ o, genderStage F o = genderStage G o) →
  (∀ o, syllablesStage F o = syllablesStage G o) →
  (∀ o, deityStage F o = deityStage G o) →
  (∀ o, sourcesStage F o = sourcesStage G o) →
  (∀ o, startLettersStage F o = startLettersStage G o) →
  (∀ o, startSoundsStage F o = startSoundsStage G o) →
  searchNamesIn corpus F = searchNamesIn corpus G.
Proof.
  intros H1 H2 H3 H4 H5 H6. unfold searchNamesIn. rewrite H1, H2, H3, H4.
  destruct (sourcesStage G _) as [o4|e]; [|reflexivity]. cbn [mbind Completion_bind].
  rewrite H5. destruct (startLettersStage G o4) as [o5|e]; [|reflexivity].
  cbn [mbind Completion_bind]. rewrite H6. reflexivity.
Qed.

Lemma searchNamesIn_fields (corpus : list NameRecord) (F G : WishFilters) :
  (∀ k, In k readKeys → field F k = field G k) →
  searchNamesIn corpus F = searchNamesIn corpus G.
Proof.
  intros H. apply searchNamesIn_stages; intros o;
    [apply genderStage_field | apply syllablesStage_field | apply deityStage_field
    | apply sourcesStage_field | apply startLettersStage_field
    | apply startSoundsStage_field];
    apply H; cbn; tauto.
Qed.

(** Replacing the value of one property leaves every stage but that
    property's own as it was. *)
Ltac other_stages :=
  intros;
  first [apply genderStage_field | apply syllablesStage_field | apply deityStage_field
        | apply sourcesStage_field | apply startLettersStage_field
        | apply startSoundsStage_field];
  rewrite ?field_insert_ne, ?field_delete_ne by discriminate; reflexivity.

Lemma genderStage_unset (F : WishFilters) (out : list NameRecord) :
  truthy (field F "gender") = false → genderStage F out = out.
Proof.
  intros H. rewrite genderStage_filter. apply filter_all. intros n _.
  unfold genderOk. rewrite H. reflexivity.
Qed.

(** C7.  Inactive constraints: with [gender] unset (absent, or present as
    [undefined] or [null]) the gender stage keeps every record; an empty
    [sources], [startLetters] or [startSounds] list makes its stage keep
    every record, so that the search answers exactly as if the property were
    absent; and a filter whose three lists are all empty returns the corpus
    (up to the cap), not the empty list. *)
Theorem inactive_constraints_restrict_nothing (corpus out : list NameRecord) (F : WishFilters) :
  genderStage (delete "gender" F) out = out
  ∧ genderStage (<["gender" := JUndefined]> F) out = out
  ∧ genderStage (<["gender" := JNull]> F) out = out
  ∧ sourcesStage (<["sources" := JArr []]> F) out = Normal out
  ∧ startLettersStage (<["startLetters" := JArr []]> F) out = Normal out
  ∧ startSoundsStage (<["startSounds" := JArr []]> F) out = Normal out
  ∧ searchNamesIn corpus (<["sources" := JArr []]> F)
    = searchNamesIn corpus (delete "sources" F)
  ∧ searchNamesIn corpus (<["startLetters" := JArr []]> F)
    = searchNamesIn corpus (delete "startLetters" F)
  ∧ searchNamesIn corpus (<["startSounds" := JArr []]> F)
    = searchNamesIn corpus (delete "startSounds" F)
  ∧ searchNamesIn corpus {[ "sources" := JArr []; "startLetters" := JArr [];
                            "startSounds" := JArr [] ]} = Normal (take 40 corpus).
Proof.
  assert (∀ G o, sourcesStage (<["sources" := JArr []]> G) o = Normal o) as Hs
    by (intros; unfold sourcesStage; rewrite field_insert_eq; reflexivity).
  assert (∀ G o, startLettersStage (<["startLetters" := JArr []]> G) o = Normal o) as Hl
    by (intros; unfold startLettersStage; rewrite field_insert_eq; reflexivity).
  assert (∀ G o, startSoundsStage (<["startSounds" := JArr []]> G) o = Normal o) as Hp
    by (intros; unfold startSoundsStage; rewrite field_insert_eq; reflexivity).
  repeat split.
  - apply genderStage_unset. rewrite field_delete_eq. reflexivity.
  - apply genderStage_unset. rewrite field_insert_eq. reflexivity.
  - apply genderStage_unset. rewrite field_insert_eq. reflexivity.
  - apply Hs.
  - apply Hl.
  - apply Hp.
  - apply searchNamesIn_stages; try solve [other_stages].
    intros o. rewrite Hs. unfold sourcesStage. rewrite field_delete_eq. reflexivity.
  - apply searchNamesIn_stages; try solve [other_stages].
    intros o. rewrite Hl. unfold startLettersStage. rewrite field_delete_eq. reflexivity.
  - apply searchNamesIn_stages; try solve [other_stages].
    intros o. rewrite Hp. unfold startSoundsStage. rewrite field_delete_eq. reflexivity.
  - rewrite searchNamesIn_typed by reflexivity.
    rewrite filter_all; [reflexivity|]. intros n _. unfold matches, genderOk.
    reflexivity.
Qed.

(** C9.  A [deity] of ["None"] switches the deity constraint off: the deity
    stage keeps every record whatever its affinity, the search answers as if
    [deity] were absent, and over the sample corpus the filter
    [{gender: "boy", deity: "None"}] returns all five records, those of
    affinity ["Vishnu"] included. *)
Theorem deity_None_deactivates (corpus out : list NameRecord) (F : WishFilters) :
  deityStage (<["deity" := JStr "None"]> F) out = out
  ∧ searchNamesIn corpus (<["deity" := JStr "None"]> F)
    = searchNamesIn corpus (delete "deity" F)
  ∧ searchNames {[ "gender" := JStr "boy"; "deity" := JStr "None" ]} = Normal MOCK_NAMES
  ∧ deityAffinity <$> MOCK_NAMES = ["Vishnu"; "None"; "Vishnu"; "None"; "Vishnu"].
Proof.
  assert (∀ o, deityStage (<["deity" := JStr "None"]> F) o = o) as Hd
    by (intros; unfold deityStage; rewrite field_insert_eq; reflexivity).
  split; [apply Hd|]. split; [|split; vm_compute; reflexivity].
  apply searchNamesIn_stages; try solve [other_stages].
  intros o. rewrite Hd. unfold deityStage. rewrite field_delete_eq. reflexivity.
Qed.

(** C10.  Fields the matcher does not read do not interfere: two filters
    that agree on [gender], [syllables], [deity], [sources], [startLetters]
    and [startSounds] give the same completion, ordered result included,
    however they differ elsewhere ([script], [themes], [vibe], [lengthMax],
    [globalPronounce], [birth], [vedicMode], a merged [rawText], ...). *)
Theorem unread_fields_do_not_interfere (corpus : list NameRecord) (F G : WishFilters) :
  (∀ k, In k readKeys → field F k = field G k) →
  searchNamesIn corpus F = searchNamesIn corpus G.
Proof. apply searchNamesIn_fields. Qed.

Lemma unread_fields_do_not_interfere_witness :
  searchNames {[ "gender" := JStr "boy"; "deity" := JStr "Vishnu";
                 "script" := JStr "Latin"; "vibe" := JStr "any"; "lengthMax" := JNull ]}
  = searchNames {[ "gender" := JStr "boy"; "deity" := JStr "Vishnu";
                   "script" := JStr "Tamil"; "themes" := JArr [JStr "Royal"];
                   "vibe" := JStr "soft"; "lengthMax" := JNum 3;
                   "globalPronounce" := JBool false; "vedicMode" := JBool true;
                   "birth" := JObj {[ "date" := JStr "2024-05-01" ]};
                   "rawText" := JStr "a boy, please" ]}.
Proof.
  apply (unread_fields_do_not_interfere MOCK_NAMES).
  intros k Hk. cbn in Hk.
  destruct Hk as [<-|[<-|[<-|[<-|[<-|[<-|[]]]]]]]; vm_compute; reflexivity.
Defined.

(** ** The claims about the Filter Resolver *)

Lemma mergeFilters_lookup (A B : WishFilters) (x : string) :
  mergeFilters A (JObj B) !! x = match B !! x with Some v => Some v | None => A !! x end.
Proof.
  unfold mergeFilters. cbn [ownProps]. rewrite lookup_union.
  destruct (B !! x), (A !! x); reflexivity.
Qed.

Lemma setStartSounds_lookup_ne (astro : Astro) (F : WishFilters) (x : string) :
  x ≠ "startSounds" → setStartSounds astro F !! x = F !! x.
Proof. intros Hne. unfold setStartSounds. apply lookup_insert_ne. congruence. Qed.

(** Enrichment writes [startSounds] and nothing else. *)
Lemma resolve_lookup_ne (A : WishFilters) (parsed : JsVal) (x : string) :
  x ≠ "startSounds" → resolve A parsed !! x = mergeFilters A parsed !! x.
Proof.
  intros Hne. unfold resolve.
  destruct (truthy _ && birthComplete _); [apply setStartSounds_lookup_ne, Hne | reflexivity].
Qed.

(** C3, as amended.  Merge precedence: in the merged filter
    [{ ...A, ...B }] every top-level property is [B]'s where [B] has it and
    [A]'s where [B] does not; [birth] is taken whole from the side that
    supplies it, never combined field by field.  The resolved filter follows
    the same rule at every property except [startSounds] when enrichment
    applies ([vedicMode] on and the birth descriptor complete in the merged
    filter): then [startSounds] is the collaborator's list, whatever [A] and
    [B] say.  Resolving the baseline [{gender: "boy"}] with the fragment
    [{syllables: 2}] yields [{gender: "boy", syllables: 2}]. *)
Theorem merge_precedence (A B : WishFilters) (x : string) (b : JsVal) :
  mergeFilters A (JObj B) !! x = match B !! x with Some v => Some v | None => A !! x end
  ∧ resolve A (JObj B) !! x
    = (if bool_decide (x = "startSounds")
          && truthy (field (mergeFilters A (JObj B)) "vedicMode")
          && birthComplete (mergeFilters A (JObj B))
       then Some (JArr (JStr <$> startSounds
                          (getNakshatra (field (mergeFilters A (JObj B)) "birth"))))
       else match B !! x with Some v => Some v | None => A !! x end)
  ∧ (x = "startSounds" ∨ resolve A (JObj B) !! x = mergeFilters A (JObj B) !! x)
  ∧ mergeFilters A (JObj (<["birth" := b]> B)) !! "birth" = Some b
  ∧ mergeFilters A (JObj (delete "birth" B)) !! "birth" = A !! "birth"
  ∧ resolve {[ "vedicMode" := JBool true;
               "birth" := JObj {[ "date" := JStr "2024-05-01"; "time" := JStr "06:30" ]} ]}
            (JObj {[ "birth" := JObj {[ "place" := JStr "Chennai" ]} ]})
    = {[ "vedicMode" := JBool true; "birth" := JObj {[ "place" := JStr "Chennai" ]} ]}
  ∧ resolve {[ "gender" := JStr "boy" ]} (JObj {[ "syllables" := JNum 2 ]})
    = {[ "gender" := JStr "boy"; "syllables" := JNum 2 ]}.
Proof.
  split; [apply mergeFilters_lookup|]. split; [|split].
  - rewrite <- mergeFilters_lookup. unfold resolve.
    destruct (decide (x = "startSounds")) as [-> | Hne].
    + rewrite bool_decide_eq_true_2 by reflexivity. cbn [andb].
      destruct (truthy _ && birthComplete _); [|reflexivity].
      unfold setStartSounds. apply lookup_insert_eq.
    + rewrite bool_decide_eq_false_2 by exact Hne. cbn [andb].
      destruct (truthy _ && birthComplete _); [|reflexivity].
      apply setStartSounds_lookup_ne, Hne.
  - destruct (decide (x = "startSounds")) as [Heq|Hne]; [left; exact Heq|].
    right. apply resolve_lookup_ne, Hne.
  - split; [rewrite mergeFilters_lookup, lookup_insert_eq; reflexivity|].
    split; [rewrite mergeFilters_lookup, lookup_delete_eq; reflexivity|].
    split; vm_compute; reflexivity.
Qed.

(** C3 as first stated fails at [startSounds].  With a baseline that has
    [vedicMode] on and a complete birth descriptor, the resolved
    [startSounds] is the collaborator's list: not the fragment's value when
    the fragment supplies one, and not the baseline's when it does not. *)
Lemma resolve_startSounds_counterexample :
  let A : WishFilters :=
    {[ "gender" := JStr "boy"; "vedicMode" := JBool true;
       "birth" := JObj {[ "date" := JStr "2024-05-01"; "time" := JStr "06:30";
                          "place" := JStr "Chennai" ]};
       "startSounds" := JArr [JStr "Va"] ]} in
  let B : WishFilters := {[ "startSounds" := JArr [JStr "Vi"] ]} in
  B !! "startSounds" = Some (JArr [JStr "Vi"])
  ∧ resolve A (JObj B) !! "startSounds"
    = Some (JArr [JStr "Hu"; JStr "He"; JStr "Ho"; JStr "Da"])
  ∧ (∅ : WishFilters) !! "startSounds" = None
  ∧ A !! "startSounds" = Some (JArr [JStr "Va"])
  ∧ resolve A (JObj ∅) !! "startSounds"
    = Some (JArr [JStr "Hu"; JStr "He"; JStr "Ho"; JStr "Da"]).
Proof. cbv zeta. repeat split; vm_compute; reflexivity. Qed.

Lemma birthComplete_true (F : WishFilters) :
  birthComplete F = true ↔
  ∃ b, field F "birth" = JObj b
       ∧ truthy (field b "date") = true
       ∧ truthy (field b "time") = true
       ∧ truthy (field b "place") = true.
Proof.
  unfold birthComplete. rewrite !andb_true_iff. split.
  - intros [[Hd Ht] Hp]. destruct (field F "birth") as [| | | | | |b]; try discriminate Hd.
    exists b. auto.
  - intros (b & -> & Hd & Ht & Hp). auto.
Qed.

(** C4, as amended.  Enrichment gating.  In parse-and-search
    ([runParseAndSearch]) the gate is the merged filter's [vedicMode] flag:
    with the flag on and birth date, time and place all present and
    non-empty, the resolved filter is the merged one with [startSounds] set
    to the list the astrology collaborator returns.  In the direct search
    ([onSearch]) the gate is the selected tab, not the flag: the same
    happens exactly when the tab is ["vedic"].  On both paths a birth
    descriptor with a missing field leaves the filter, [startSounds]
    included, as it was. *)
Theorem enrichment_gating (A : WishFilters) (parsed : JsVal) (tab : string) :
  let merged := mergeFilters A parsed in
  (truthy (field merged "vedicMode") = true → birthComplete merged = true →
   resolve A parsed
   = <["startSounds" := JArr (JStr <$> startSounds (getNakshatra (field merged "birth")))]> merged)
  ∧ (birthComplete merged = false → resolve A parsed = merged)
  ∧ (tab = "vedic" → birthComplete A = true →
     resolveOnSearch tab A
     = <["startSounds" := JArr (JStr <$> startSounds (getNakshatra (field A "birth")))]> A)
  ∧ (tab ≠ "vedic" → resolveOnSearch tab A = A)
  ∧ (birthComplete A = false → resolveOnSearch tab A = A)
  ∧ startSounds (getNakshatra (field merged "birth")) = ["Hu"; "He"; "Ho"; "Da"].
Proof.
  cbv zeta. unfold resolve, resolveOnSearch, setStartSounds. repeat split.
  - intros -> ->. reflexivity.
  - intros ->. rewrite andb_false_r. reflexivity.
  - intros -> ->. reflexivity.
  - intros Hne. apply String.eqb_neq in Hne. rewrite Hne. reflexivity.
  - intros ->. rewrite andb_false_r. reflexivity.
Qed.

(** C4 at a birth descriptor with all three fields, once through the parse
    path with the flag on, once through the direct search on the Vedic tab,
    and at a descriptor that lacks the place. *)
Lemma enrichment_gating_witness :
  resolve {[ "gender" := JStr "boy"; "vedicMode" := JBool true; "startSounds" := JArr [JStr "Va"] ]}
          (JObj {[ "birth" := JObj {[ "date" := JStr "2024-05-01"; "time" := JStr "06:30";
                                      "place" := JStr "Chennai" ]} ]})
  = {[ "gender" := JStr "boy"; "vedicMode" := JBool true;
       "birth" := JObj {[ "date" := JStr "2024-05-01"; "time" := JStr "06:30";
                          "place" := JStr "Chennai" ]};
       "startSounds" := JArr [JStr "Hu"; JStr "He"; JStr "Ho"; JStr "Da"] ]}
  ∧ resolve {[ "gender" := JStr "boy"; "vedicMode" := JBool true; "startSounds" := JArr [JStr "Va"] ]}
            (JObj {[ "birth" := JObj {[ "date" := JStr "2024-05-01"; "time" := JStr "06:30" ]} ]})
    = {[ "gender" := JStr "boy"; "vedicMode" := JBool true; "startSounds" := JArr [JStr "Va"];
         "birth" := JObj {[ "date" := JStr "2024-05-01"; "time" := JStr "06:30" ]} ]}.
Proof.
  split.
  - etransitivity;
      [apply (proj1 (enrichment_gating
                {[ "gender" := JStr "boy"; "vedicMode" := JBool true;
                   "startSounds" := JArr [JStr "Va"] ]}
                (JObj {[ "birth" := JObj {[ "date" := JStr "2024-05-01"; "time" := JStr "06:30";
                                            "place" := JStr "Chennai" ]} ]}) "vedic"));
       vm_compute; reflexivity
      | vm_compute; reflexivity].
  - etransitivity;
      [apply (proj1 (proj2 (enrichment_gating
                {[ "gender" := JStr "boy"; "vedicMode" := JBool true;
                   "startSounds" := JArr [JStr "Va"] ]}
                (JObj {[ "birth" := JObj {[ "date" := JStr "2024-05-01"; "time" := JStr "06:30" ]} ]})
                "vedic")));
       vm_compute; reflexivity
      | vm_compute; reflexivity].
Defined.

(** C4 as first stated fails in the direct search.  After the three birth
    inputs have been filled in (each sets [vedicMode: true]) and the Quick
    Pick tab has been selected again, the filter has the flag on and a
    complete birth descriptor, yet [onSearch] leaves [startSounds] unset and
    returns all five records, where the enriched filter would match none. *)
Lemma onSearch_gate_counterexample :
  let F : WishFilters :=
    {[ "gender" := JStr "boy"; "vedicMode" := JBool true;
       "birth" := JObj {[ "date" := JStr "2024-05-01"; "time" := JStr "06:30";
                          "place" := JStr "Chennai" ]} ]} in
  let st := {| tab := "quick"; wishes := ""; loading := false; filters := F;
               results := []; compareIds := [] |} in
  truthy (field F "vedicMode") = true
  ∧ birthComplete F = true
  ∧ resolveOnSearch (tab st) F !! "startSounds" = None
  ∧ onSearch st = (setResults MOCK_NAMES st, Normal tt)
  ∧ searchNames (<["startSounds" := JArr (JStr <$> startSounds (getNakshatra (field F "birth")))]> F)
    = Normal [].
Proof. cbv zeta. repeat split; vm_compute; reflexivity. Qed.

(** ** Failure of the parse collaborator *)

Lemma mergeFilters_empty (A : WishFilters) : mergeFilters A (JObj ∅) = A.
Proof. unfold mergeFilters. cbn [ownProps]. apply map_empty_union. Qed.

Lemma mergeFilters_rawText (A : WishFilters) (content : string) :
  mergeFilters A (JObj {[ "rawText" := JStr content ]}) = <["rawText" := JStr content]> A.
Proof. unfold mergeFilters. cbn [ownProps]. symmetry. apply insert_union_singleton_l. Qed.

(** A raw-text payload is carried along as one more property; the gate and
    the enrichment do not look at it. *)
Lemma resolve_rawText (A : WishFilters) (content : string) :
  resolve A (JObj {[ "rawText" := JStr content ]})
  = <["rawText" := JStr content]> (resolve A (JObj ∅)).
Proof.
  unfold resolve. rewrite mergeFilters_rawText, mergeFilters_empty.
  unfold birthComplete. rewrite !(field_insert_ne A "rawText") by discriminate.
  destruct (truthy (field A "vedicMode") && _); [|reflexivity].
  unfold setStartSounds. apply insert_insert_ne. discriminate.
Qed.

Lemma optStringArray_strings (l : list string) : optStringArray (JArr (JStr <$> l)) = true.
Proof. cbn [optStringArray]. induction l as [|s l IH]; [reflexivity | exact IH]. Qed.

(** Enrichment keeps a filter well-typed: it stores a list of strings. *)
Lemma resolve_wellTyped (A : WishFilters) :
  wellTyped A = true → wellTyped (resolve A (JObj ∅)) = true.
Proof.
  unfold resolve. rewrite mergeFilters_empty.
  destruct (truthy (field A "vedicMode") && birthComplete A); [|trivial].
  unfold wellTyped, setStartSounds. rewrite !andb_true_iff. intros [[Hs Hl] _].
  rewrite !(field_insert_ne A "startSounds") by discriminate.
  rewrite field_insert_eq. auto using optStringArray_strings.
Qed.

(** C6, as amended.  Failure of the wish-parsing collaborator.  When the
    model's output is not JSON the route answers [{rawText: output}], and a
    run that receives such a payload completes normally: the filter stored
    is the baseline resolved on its own plus the [rawText] property, and the
    results are those of the baseline alone (the payload adds no
    constraint).  When the collaborator call itself fails ([fetch] or
    [r.json()] rejects), the run does not complete: the exception leaves
    [runParseAndSearch], with filters and results as they were and only the
    loading flag cleared. *)
Theorem parse_failure_handling (JSON_parse : string → option JsVal)
    (parseWishesLLM : string → Completion JsVal) (st : AppState) (content : string) (e : Exn) :
  (JSON_parse content = None →
   POST JSON_parse (Normal (Some content)) = Normal (JObj {[ "rawText" := JStr content ]}))
  ∧ (parseWishesLLM (wishes st) = Normal (JObj {[ "rawText" := JStr content ]}) →
     wellTyped (filters st) = true →
     ∃ r, searchNames (resolve (filters st) (JObj ∅)) = Normal r
          ∧ runParseAndSearch parseWishesLLM st
            = (setResults r
                 (setFilters (<["rawText" := JStr content]> (resolve (filters st) (JObj ∅)))
                    (setLoading false st)),
               Normal tt))
  ∧ (parseWishesLLM (wishes st) = Throw e →
     runParseAndSearch parseWishesLLM st = (setLoading false st, Throw e)).
Proof.
  split; [|split].
  - intros Hbad. unfold POST. cbn. rewrite Hbad. reflexivity.
  - intros Hparse Hty. eexists. split.
    + apply searchNamesIn_typed, resolve_wellTyped, Hty.
    + unfold runParseAndSearch. cbn [setLoading wishes filters]. rewrite Hparse.
      cbn [mbind Completion_bind]. rewrite resolve_rawText.
      unfold searchNames at 1.
      rewrite (searchNamesIn_fields MOCK_NAMES _ (resolve (filters st) (JObj ∅)))
        by (intros k Hk; cbn in Hk;
            destruct Hk as [<-|[<-|[<-|[<-|[<-|[<-|[]]]]]]];
            apply field_insert_ne; discriminate).
      rewrite (searchNamesIn_typed _ _ (resolve_wellTyped _ Hty)). reflexivity.
  - intros Hparse. unfold runParseAndSearch. cbn [setLoading wishes]. rewrite Hparse.
    reflexivity.
Qed.

(** C6 at the initial page state, for a model output that is plain prose
    and for a rejected [fetch]. *)
Lemma parse_failure_handling_witness :
  (∃ r, searchNames (resolve (filters initialState) (JObj ∅)) = Normal r
        ∧ runParseAndSearch (fun _ => Normal (JObj {[ "rawText" := JStr "Sure! Here you go" ]}))
            initialState
          = (setResults r
               (setFilters (<["rawText" := JStr "Sure! Here you go"]>
                              (resolve (filters initialState) (JObj ∅)))
                  (setLoading false initialState)),
             Normal tt))
  ∧ runParseAndSearch (fun _ => Throw (Rejected "Failed to fetch")) initialState
    = (setLoading false initialState, Throw (Rejected "Failed to fetch")).
Proof.
  split.
  - apply (proj1 (proj2 (parse_failure_handling (fun _ => None)
             (fun _ => Normal (JObj {[ "rawText" := JStr "Sure! Here you go" ]}))
             initialState "Sure! Here you go" TypeError)));
      [reflexivity | vm_compute; reflexivity].
  - apply (proj2 (proj2 (parse_failure_handling (fun _ => None)
             (fun _ => Throw (Rejected "Failed to fetch"))
             initialState "" (Rejected "Failed to fetch")))).
    reflexivity.
Defined.

(** C6 as first stated fails when the collaborator is unreachable: the
    rejection propagates out of [runParseAndSearch], and the results stay
    empty although the baseline filter on its own matches all five
    records. *)
Lemma unreachable_parser_counterexample :
  runParseAndSearch (fun _ => Throw (Rejected "Failed to fetch")) initialState
  = (initialState, Throw (Rejected "Failed to fetch"))
  ∧ results initialState = []
  ∧ searchNames (filters initialState) = Normal MOCK_NAMES.
Proof. repeat split; vm_compute; reflexivity. Qed.

(** A fragment that is JSON but ill-typed can make the matcher itself throw:
    a string has no [some]. *)
Example ill_typed_fragment_throws :
  runParseAndSearch (fun _ => Normal (JObj {[ "startLetters" := JStr "V" ]})) initialState
  = (initialState, Throw TypeError).
Proof. vm_compute. reflexivity. Qed.

(** Spreading a JSON string copies its characters under their indices. *)
Example spread_of_string :
  mergeFilters {[ "gender" := JStr "boy" ]} (JStr "ok")
  = {[ "gender" := JStr "boy"; "0" := JStr "o"; "1" := JStr "k" ]}.
Proof. vm_compute. reflexivity. Qed.

(** The other scenarios of the specification, for reference. *)
Example scenario_boy_two_syllables :
  searchNames {[ "gender" := JStr "boy"; "syllables" := JNum 2 ]} = Normal MOCK_NAMES.
Proof. vm_compute. reflexivity. Qed.

Example scenario_start_letters :
  searchNames {[ "gender" := JStr "boy"; "startLetters" := JArr [JStr "Ve"] ]} = Normal [Vedant].
Proof. vm_compute. reflexivity. Qed.

Example scenario_girl :
  searchNames {[ "gender" := JStr "girl" ]} = Normal [].
Proof. vm_compute. reflexivity. Qed.

(** * Further properties of the page *)

(** ** The compare shortlist *)

Lemma includesStr_In (l : list string) (s : string) :
  includesStr l s = true ↔ In s l.
Proof.
  unfold includesStr. rewrite existsb_exists. split.
  - intros (x & Hx & Heq). apply String.eqb_eq in Heq. subst x. exact Hx.
  - intros Hs. exists s. split; [exact Hs | apply String.eqb_refl].
Qed.

Lemma withoutStr_In (l : list string) (s x : string) :
  In x (withoutStr l s) ↔ In x l ∧ x ≠ s.
Proof.
  unfold withoutStr. rewrite filter_In, negb_true_iff, String.eqb_neq. reflexivity.
Qed.

Lemma withoutStr_absent (l : list string) (s : string) :
  ¬ In s l → withoutStr l s = l.
Proof.
  intros Hs. apply filter_all. intros x Hx.
  apply negb_true_iff, String.eqb_neq. intros ->. contradiction.
Qed.

(** Clicking Compare on a card flips that record's id in the shortlist,
    leaves every other id's membership alone, and never introduces a
    duplicate. *)
Theorem toggleCompare_flips (rid x : string) (st : AppState) :
  (In rid (compareIds (toggleCompare rid st)) ↔ ¬ In rid (compareIds st))
  ∧ (x ≠ rid → (In x (compareIds (toggleCompare rid st)) ↔ In x (compareIds st)))
  ∧ (NoDup (compareIds st) → NoDup (compareIds (toggleCompare rid st))).
Proof.
  unfold toggleCompare. cbn [setCompareIds compareIds].
  destruct (includesStr (compareIds st) rid) eqn:Hinc.
  - apply includesStr_In in Hinc. split; [|split].
    + rewrite withoutStr_In. split; [intros [_ H]; congruence | intros H; contradiction].
    + intros Hne. rewrite withoutStr_In. split; [intros [H _]; exact H | auto].
    + intros Hnd. eapply sublist_NoDup; [exact Hnd | apply filter_sublist].
  - assert (¬ In rid (compareIds st)) as Hnot
      by (rewrite <- includesStr_In, Hinc; discriminate).
    split; [|split].
    + rewrite in_app_iff. split; [intros _; exact Hnot | intros _; right; left; reflexivity].
    + intros Hne. rewrite in_app_iff. split; [|auto].
      intros [H | [H | []]]; [exact H | congruence].
    + intros Hnd. apply NoDup_app. split; [exact Hnd|]. split; [|apply NoDup_singleton].
      intros y Hy Hy'. apply list_elem_of_In in Hy. apply list_elem_of_In in Hy'.
      destruct Hy' as [<- | []]. contradiction.
Qed.

(** Compare clicked twice on the same card: an id that was not selected is
    added and removed again, giving back the very same list; an id that was
    selected is removed and re-added, so it moves to the end. *)
Theorem toggleCompare_twice (rid : string) (st : AppState) :
  compareIds (toggleCompare rid (toggleCompare rid st))
  = if includesStr (compareIds st) rid
    then (withoutStr (compareIds st) rid ++ [rid])%list
    else compareIds st.
Proof.
  unfold toggleCompare. cbn [setCompareIds compareIds].
  destruct (includesStr (compareIds st) rid) eqn:Hinc.
  - destruct (includesStr (withoutStr (compareIds st) rid) rid) eqn:Hinc'; [|reflexivity].
    apply includesStr_In, withoutStr_In in Hinc'. destruct Hinc' as [_ H]. congruence.
  - assert (¬ In rid (compareIds st)) as Hnot
      by (rewrite <- includesStr_In, Hinc; discriminate).
    assert (includesStr (compareIds st ++ [rid]) rid = true) as ->
      by (apply includesStr_In, in_app_iff; right; left; reflexivity).
    unfold withoutStr. rewrite List.filter_app. fold (withoutStr (compareIds st) rid).
    rewrite (withoutStr_absent _ _ Hnot). cbn [List.filter].
    rewrite String.eqb_refl. cbn [negb]. apply app_nil_r.
Qed.

Lemma compareItems_In (st : AppState) (r : NameRecord) :
  In r (compareItems st) ↔ In r (results st) ∧ In (id r) (compareIds st).
Proof. unfold compareItems. rewrite filter_In, includesStr_In. reflexivity. Qed.

(** The compare drawer lists results only, in result order, namely those
    whose id is selected; when the results carry distinct ids, the drawer's
    count never exceeds the number of selected ids. *)
Theorem compareItems_bounded (st : AppState) :
  NoDup (id <$> results st) →
  compareItems st `sublist_of` results st
  ∧ (∀ r, In r (compareItems st) ↔ In r (results st) ∧ In (id r) (compareIds st))
  ∧ (length (compareItems st) ≤ length (compareIds st))%nat.
Proof.
  intros Hnd. split; [apply filter_sublist|]. split; [apply compareItems_In|].
  rewrite <- (length_fmap id (compareItems st)). apply NoDup_incl_length.
  - apply NoDup_ListNoDup.
    eapply sublist_NoDup; [exact Hnd|]. apply fmap_sublist, filter_sublist.
  - intros x Hx. apply in_map_iff in Hx. destruct Hx as (r & <- & Hr).
    apply compareItems_In in Hr. apply Hr.
Qed.

Lemma compareItems_bounded_witness :
  compareItems {| tab := "quick"; wishes := ""; loading := false; filters := ∅;
                  results := [Vedant; Harish]; compareIds := ["5"; "1"; "2"] |}
    `sublist_of` [Vedant; Harish]
  ∧ (length (compareItems {| tab := "quick"; wishes := ""; loading := false; filters := ∅;
                             results := [Vedant; Harish]; compareIds := ["5"; "1"; "2"] |})
     ≤ 3)%nat.
Proof.
  pose proof (compareItems_bounded
    {| tab := "quick"; wishes := ""; loading := false; filters := ∅;
       results := [Vedant; Harish]; compareIds := ["5"; "1"; "2"] |}) as H.
  destruct H as (H1 & _ & H3).
  - apply (bool_decide_unpack _). vm_compute. reflexivity.
  - split; [exact H1 | exact H3].
Defined.

(** Removing an id in the drawer drops exactly the records with that id
    from the compare items, keeps the others in order, and is what a Compare
    click on a selected card does. *)
Theorem onRemove_drops (rid : string) (st : AppState) :
  ¬ In rid (compareIds (onRemove rid st))
  ∧ compareItems (onRemove rid st)
    = List.filter (fun r => negb (String.eqb (id r) rid)) (compareItems st)
  ∧ (In rid (compareIds st) → toggleCompare rid st = onRemove rid st).
Proof.
  unfold onRemove, toggleCompare, compareItems. cbn [setCompareIds compareIds results].
  split; [|split].
  - rewrite withoutStr_In. intros [_ H]. congruence.
  - rewrite filter_filter. apply List.filter_ext. intros r.
    destruct (includesStr (withoutStr (compareIds st) rid) (id r)) eqn:H1.
    + apply includesStr_In, withoutStr_In in H1. destruct H1 as [H1 H2].
      apply includesStr_In in H1. apply String.eqb_neq in H2. rewrite H1, H2. reflexivity.
    + destruct (includesStr (compareIds st) (id r)) eqn:H2; [|reflexivity].
      destruct (String.eqb_spec (id r) rid) as [Heq|Hne]; [reflexivity|].
      apply includesStr_In in H2.
      assert (includesStr (withoutStr (compareIds st) rid) (id r) = true) as H3
        by (apply includesStr_In, withoutStr_In; auto).
      congruence.
  - intros Hin. apply includesStr_In in Hin. unfold setCompareIds. cbv beta.
    rewrite Hin. reflexivity.
Qed.

(** ** The matcher on arbitrary filters *)

Lemma filterM_sublist {A : Type} (cb : A → Completion bool) (l out : list A) :
  filterM cb l = Normal out → out `sublist_of` l.
Proof.
  revert out. induction l as [|x l IH]; intros out; simpl.
  - intros [= <-]. constructor.
  - destruct (cb x) as [b|e]; simpl; [|discriminate].
    destruct (filterM cb l) as [rest|e]; simpl; [|discriminate].
    intros [= <-]. destruct b; [apply sublist_skip | apply sublist_cons]; apply IH; reflexivity.
Qed.

(** Whatever the filter object holds, well-typed or not, a search that
    completes returns at most forty records of the corpus, in corpus order
    and without repetition; over [MOCK_NAMES] the ids of the results are
    pairwise distinct. *)
Theorem searchNames_selects (corpus : list NameRecord) (F : WishFilters) (out : list NameRecord) :
  searchNamesIn corpus F = Normal out →
  out `sublist_of` corpus
  ∧ (length out ≤ 40)%nat
  ∧ (corpus = MOCK_NAMES → NoDup (id <$> out)).
Proof.
  unfold searchNamesIn. intros Hrun.
  destruct (sourcesStage F _) as [o4|e] eqn:H4; [|discriminate Hrun].
  cbn [mbind Completion_bind] in Hrun.
  destruct (startLettersStage F o4) as [o5|e] eqn:H5; [|discriminate Hrun].
  cbn [mbind Completion_bind] in Hrun.
  destruct (startSoundsStage F o5) as [o6|e] eqn:H6; [|discriminate Hrun].
  cbn [mbind Completion_bind] in Hrun. injection Hrun as <-.
  assert (∀ (c : bool) (cb : NameRecord → Completion bool) (l o : list NameRecord),
            (if c then filterM cb l else Normal l) = Normal o → o `sublist_of` l) as Hstage
    by (intros [] cb l o H; [apply (filterM_sublist _ _ _ H) | injection H as <-; reflexivity]).
  apply Hstage in H4, H5, H6.
  rewrite deityStage_filter, syllablesStage_filter, genderStage_filter in H4.
  assert (take 40 o6 `sublist_of` corpus) as Hsub.
  { etransitivity; [apply sublist_take|].
    etransitivity; [exact H6|]. etransitivity; [exact H5|]. etransitivity; [exact H4|].
    etransitivity; [apply filter_sublist|].
    etransitivity; [apply filter_sublist|]. apply filter_sublist. }
  split; [exact Hsub|]. split; [rewrite length_take; lia|].
  intros ->. eapply sublist_NoDup; [|apply fmap_sublist, Hsub].
  apply (bool_decide_unpack _). vm_compute. reflexivity.
Qed.

(** An ill-typed filter that completes with results: a [sources] that is
    one string is searched for each record's tags as substrings. *)
Lemma searchNames_selects_witness :
  searchNames {[ "gender" := JStr "boy"; "sources" := JStr "Puranas" ]}
  = Normal [Vihaan; Vasu; Harish]
  ∧ [Vihaan; Vasu; Harish] `sublist_of` MOCK_NAMES
  ∧ (length [Vihaan; Vasu; Harish] ≤ 40)%nat
  ∧ NoDup (id <$> [Vihaan; Vasu; Harish]).
Proof.
  assert (searchNames {[ "gender" := JStr "boy"; "sources" := JStr "Puranas" ]}
          = Normal [Vihaan; Vasu; Harish]) as Hrun by (vm_compute; reflexivity).
  split; [exact Hrun|].
  destruct (searchNames_selects MOCK_NAMES
              {[ "gender" := JStr "boy"; "sources" := JStr "Puranas" ]}
              [Vihaan; Vasu; Harish] Hrun) as (H1 & H2 & H3).
  split; [exact H1|]. split; [exact H2 | exact (H3 eq_refl)].
Defined.

Lemma startSoundsStage_nil (F : WishFilters) : startSoundsStage F [] = Normal [].
Proof. unfold startSoundsStage. destruct (truthy _); reflexivity. Qed.

Lemma truthy_string_length (s : string) :
  s ≠ "" → truthy (lengthOf (JStr s)) = true.
Proof. destruct s; [congruence | reflexivity]. Qed.

(** A [startLetters] that is a single non-empty string instead of a list (a
    shape the parse collaborator can answer with) makes the search throw a
    [TypeError] as soon as one record passes the gender, syllable, deity and
    source constraints; when none does, the search completes with no
    result. *)
Theorem startLetters_string_throws (corpus : list NameRecord) (F : WishFilters) (s : string) :
  optStringArray (field F "sources") = true →
  field F "startLetters" = JStr s →
  s ≠ "" →
  searchNamesIn corpus F
  = match List.filter (fun n => genderOk F n && syllablesOk F n && deityOk F n && sourcesOk F n)
                      corpus with
    | [] => Normal []
    | _ :: _ => Throw TypeError
    end.
Proof.
  intros Hsrc Hl Hne. unfold searchNamesIn.
  rewrite genderStage_filter, syllablesStage_filter, deityStage_filter.
  rewrite (sourcesStage_typed _ _ Hsrc). cbn [mbind Completion_bind].
  rewrite !filter_filter.
  rewrite (List.filter_ext _ (fun n => genderOk F n && syllablesOk F n && deityOk F n && sourcesOk F n))
    by (intros n; rewrite !andb_assoc; reflexivity).
  unfold startLettersStage. rewrite Hl, (truthy_string_length _ Hne).
  destruct (List.filter _ corpus) as [|x l]; [|reflexivity].
  cbn [filterM mbind Completion_bind]. rewrite startSoundsStage_nil. reflexivity.
Qed.

Lemma startLetters_string_throws_witness :
  searchNames {[ "gender" := JStr "boy"; "startLetters" := JStr "V" ]} = Throw TypeError
  ∧ searchNames {[ "gender" := JStr "girl"; "startLetters" := JStr "V" ]} = Normal [].
Proof.
  split.
  - etransitivity;
      [apply (startLetters_string_throws MOCK_NAMES
                {[ "gender" := JStr "boy"; "startLetters" := JStr "V" ]} "V");
       [reflexivity | reflexivity | discriminate]
      | vm_compute; reflexivity].
  - etransitivity;
      [apply (startLetters_string_throws MOCK_NAMES
                {[ "gender" := JStr "girl"; "startLetters" := JStr "V" ]} "V");
       [reflexivity | reflexivity | discriminate]
      | vm_compute; reflexivity].
Defined.

Lemma lowerAscii_idem (c : ascii) : lowerAscii (lowerAscii c) = lowerAscii c.
Proof. destruct c as [[] [] [] [] [] [] [] []]; vm_compute; reflexivity. Qed.

Lemma toLowerCase_idem (s : string) : toLowerCase (toLowerCase s) = toLowerCase s.
Proof.
  induction s as [|c s IH]; [reflexivity|]. cbn [toLowerCase].
  rewrite lowerAscii_idem, IH. reflexivity.
Qed.

Lemma omap_asStr_strings (l : list string) : omap asStr (JStr <$> l) = l.
Proof. induction l as [|s l IH]; [reflexivity|]. cbn. f_equal. exact IH. Qed.

Lemma startsWithAny_lower (subject : string) (l : list string) :
  startsWithAny subject (toLowerCase <$> l) = startsWithAny subject l.
Proof.
  unfold startsWithAny. destruct l as [|s l]; [reflexivity|].
  change (toLowerCase <$> s :: l) with (toLowerCase s :: (toLowerCase <$> l)).
  cbn [existsb]. rewrite toLowerCase_idem. f_equal.
  induction l as [|t l IH]; [reflexivity|].
  change (toLowerCase <$> t :: l) with (toLowerCase t :: (toLowerCase <$> l)).
  cbn [existsb]. rewrite toLowerCase_idem, IH. reflexivity.
Qed.

(** Start letters and start sounds are matched without regard to (ASCII)
    case: writing the entries in lower case changes nothing in what the
    search returns. *)
Theorem prefix_entries_case_insensitive (corpus : list NameRecord) (F : WishFilters)
    (l : list string) :
  searchNamesIn corpus (<["startLetters" := JArr (JStr <$> l)]> F)
  = searchNamesIn corpus (<["startLetters" := JArr (JStr <$> (toLowerCase <$> l))]> F)
  ∧ searchNamesIn corpus (<["startSounds" := JArr (JStr <$> l)]> F)
    = searchNamesIn corpus (<["startSounds" := JArr (JStr <$> (toLowerCase <$> l))]> F).
Proof.
  split.
  - apply searchNamesIn_stages; try solve [other_stages]. intros o.
    rewrite !startLettersStage_typed
      by (rewrite field_insert_eq; apply optStringArray_strings).
    f_equal. apply List.filter_ext. intros n. unfold startLettersOk.
    rewrite !field_insert_eq. cbn [stringsOf]. rewrite !omap_asStr_strings.
    symmetry. apply startsWithAny_lower.
  - apply searchNamesIn_stages; try solve [other_stages]. intros o.
    rewrite !startSoundsStage_typed
      by (rewrite field_insert_eq; apply optStringArray_strings).
    f_equal. apply List.filter_ext. intros n. unfold startSoundsOk.
    rewrite !field_insert_eq. cbn [stringsOf]. rewrite !omap_asStr_strings.
    symmetry. apply startsWithAny_lower.
Qed.

(** ** The start-letters input *)

Lemma jsSplit_single_inv (sep c : ascii) (s : string) :
  jsSplit sep (String c s) = [String c s] → Ascii.eqb c sep = false ∧ jsSplit sep s = [s].
Proof.
  cbn [jsSplit]. destruct (Ascii.eqb c sep); [discriminate|].
  destruct (jsSplit sep s) as [|h t] eqn:Hs.
  - destruct s; discriminate Hs || (cbn in Hs; destruct (Ascii.eqb _ _), (jsSplit sep s);
                                     discriminate Hs).
  - intros [= -> ->]. split; reflexivity.
Qed.

Lemma jsSplit_single_cons (sep c : ascii) (s : string) :
  Ascii.eqb c sep = false → jsSplit sep s = [s] → jsSplit sep (String c s) = [String c s].
Proof. intros Hc Hs. cbn [jsSplit]. rewrite Hc, Hs. reflexivity. Qed.

Lemma jsSplit_app_sep (sep : ascii) (a b : string) :
  jsSplit sep a = [a] → jsSplit sep (a ++ String sep b) = a :: jsSplit sep b.
Proof.
  induction a as [|c a IH]; intros Ha.
  - change ("" ++ String sep b) with (String sep b). cbn [jsSplit].
    rewrite Ascii.eqb_refl. reflexivity.
  - change (String c a ++ String sep b) with (String c (a ++ String sep b)).
    apply jsSplit_single_inv in Ha. destruct Ha as [Hc Ha].
    cbn [jsSplit]. rewrite Hc, (IH Ha). reflexivity.
Qed.

Lemma jsSplit_pieces (sep : ascii) (v x : string) :
  In x (jsSplit sep v) → jsSplit sep x = [x].
Proof.
  revert x. induction v as [|c v IH]; intros x; cbn [jsSplit].
  - intros [<- | []]. reflexivity.
  - destruct (Ascii.eqb c sep) eqn:Hc.
    + intros [<- | Hx]; [reflexivity | apply IH, Hx].
    + destruct (jsSplit sep v) as [|h t].
      * intros [<- | []]. apply jsSplit_single_cons; [exact Hc | reflexivity].
      * intros [<- | Hx]; [|apply IH; right; exact Hx].
        apply jsSplit_single_cons; [exact Hc | apply IH; left; reflexivity].
Qed.

Lemma jsSplit_single_iff (sep : ascii) (x : string) :
  jsSplit sep x = [x] ↔ Forall (fun c => Ascii.eqb c sep = false) (list_ascii_of_string x).
Proof.
  induction x as [|c x IH]; cbn [list_ascii_of_string].
  - split; [constructor | reflexivity].
  - rewrite Forall_cons, <- IH. split.
    + apply jsSplit_single_inv.
    + intros [Hc Hx]. apply jsSplit_single_cons; assumption.
Qed.

(** *** Trimming *)

Lemma dropSpaces_unfold (back : bool) (l : list ascii) :
  dropSpaces back l
  = match spaceWidth back l with
    | 0 => l
    | S k => dropSpaces back (drop (S k) l)
    end.
Proof.
  destruct l as [|a [|b [|c l]]]; cbn [dropSpaces spaceWidth]; [reflexivity|..].
  - destruct (isSpace1 a); reflexivity.
  - destruct (isSpace1 a); [reflexivity|].
    destruct (if back then isSpace2 b a else isSpace2 a b); reflexivity.
  - destruct (isSpace1 a); [reflexivity|].
    destruct (if back then isSpace2 b a else isSpace2 a b); [reflexivity|].
    destruct (if back then isSpace3 c b a else isSpace3 a b c); reflexivity.
Qed.

Lemma spaceWidth_le (back : bool) (l : list ascii) : (spaceWidth back l ≤ length l)%nat.
Proof.
  destruct l as [|a [|b [|c l]]]; cbn [spaceWidth length];
    repeat match goal with |- context [if ?c then _ else _] => destruct c end; lia.
Qed.

(** Strong induction on the length of a text. *)
Lemma bytes_ind (P : list ascii → Prop) :
  (∀ l, (∀ l', (length l' < length l)%nat → P l') → P l) → ∀ l, P l.
Proof.
  intros Hstep l. remember (length l) as n eqn:Hn. revert l Hn.
  induction n as [n IH] using lt_wf_ind. intros l ->.
  apply Hstep. intros l' Hlt. apply (IH (length l') Hlt). reflexivity.
Qed.

Lemma dropSpaces_suffix (back : bool) (l : list ascii) :
  ∃ p, l = (p ++ dropSpaces back l)%list.
Proof.
  induction l as [l IH] using bytes_ind. rewrite dropSpaces_unfold.
  pose proof (spaceWidth_le back l) as Hle.
  destruct (spaceWidth back l) as [|k]; [exists []; reflexivity|].
  destruct (IH (drop (S k) l)) as [p Hp]; [rewrite length_drop; lia|].
  exists (take (S k) l ++ p)%list.
  rewrite <- (take_drop (S k) l) at 1. rewrite Hp at 1. apply app_assoc.
Qed.

Lemma dropSpaces_width (back : bool) (l : list ascii) :
  spaceWidth back (dropSpaces back l) = 0%nat.
Proof.
  induction l as [l IH] using bytes_ind. rewrite dropSpaces_unfold.
  pose proof (spaceWidth_le back l) as Hle.
  destruct (spaceWidth back l) as [|k] eqn:Hw; [exact Hw|].
  apply IH. rewrite length_drop. lia.
Qed.

Lemma dropSpaces_fixed (back : bool) (l : list ascii) :
  spaceWidth back l = 0%nat → dropSpaces back l = l.
Proof. intros Hw. rewrite dropSpaces_unfold, Hw. reflexivity. Qed.

(** A text that starts with no white space has no prefix that does: the
    tests read the first bytes only. *)
Lemma spaceWidth_prefix (back : bool) (p q : list ascii) :
  spaceWidth back (p ++ q) = 0%nat → spaceWidth back p = 0%nat.
Proof.
  destruct p as [|a [|b [|c p]]]; cbn [spaceWidth app]; [reflexivity|..].
  - destruct (isSpace1 a); [discriminate | reflexivity].
  - destruct (isSpace1 a); [discriminate|].
    destruct (if back then isSpace2 b a else isSpace2 a b); [discriminate | reflexivity].
  - trivial.
Qed.

Lemma trimEnd_prefix (l : list ascii) : ∃ q, l = (trimEnd l ++ q)%list.
Proof.
  unfold trimEnd. destruct (dropSpaces_suffix true (List.rev l)) as [p Hp].
  exists (List.rev p). rewrite <- List.rev_app_distr, <- Hp, List.rev_involutive. reflexivity.
Qed.

Lemma trimEnd_idem (l : list ascii) : trimEnd (trimEnd l) = trimEnd l.
Proof.
  unfold trimEnd. rewrite List.rev_involutive.
  rewrite (dropSpaces_fixed true (dropSpaces true _)) by apply dropSpaces_width.
  reflexivity.
Qed.

Lemma jsTrim_idem (x : string) : jsTrim (jsTrim x) = jsTrim x.
Proof.
  unfold jsTrim. rewrite list_ascii_of_string_of_list_ascii.
  set (y := trimStart (list_ascii_of_string x)).
  assert (trimStart (trimEnd y) = trimEnd y) as ->.
  { apply dropSpaces_fixed. destruct (trimEnd_prefix y) as [q Hq].
    apply (spaceWidth_prefix false _ q). rewrite <- Hq. apply dropSpaces_width. }
  rewrite trimEnd_idem. reflexivity.
Qed.

(** Trimming keeps a part of the text, so it brings no separator in. *)
Lemma jsTrim_single (sep : ascii) (x : string) :
  jsSplit sep x = [x] → jsSplit sep (jsTrim x) = [jsTrim x].
Proof.
  rewrite !jsSplit_single_iff. unfold jsTrim.
  rewrite list_ascii_of_string_of_list_ascii. intros Hx.
  destruct (dropSpaces_suffix false (list_ascii_of_string x)) as [p Hp].
  fold (trimStart (list_ascii_of_string x)) in Hp.
  destruct (trimEnd_prefix (trimStart (list_ascii_of_string x))) as [q Hq].
  rewrite Hp, Hq in Hx. apply Forall_app in Hx. destruct Hx as [_ Hx].
  apply Forall_app in Hx. apply Hx.
Qed.

Lemma parseStartLetters_clean (value : string) :
  Forall cleanEntry (parseStartLetters value).
Proof.
  apply List.Forall_forall. intros y Hy. unfold parseStartLetters in Hy.
  apply filter_In in Hy. destruct Hy as [Hy Hne].
  apply in_map_iff in Hy. destruct Hy as (x & <- & Hx).
  split; [apply String.eqb_neq, negb_true_iff, Hne|]. split; [apply jsTrim_idem|].
  apply jsTrim_single, (jsSplit_pieces _ _ _ Hx).
Qed.

Lemma jsTrim_space (x : string) : jsTrim (String " " x) = jsTrim x.
Proof. reflexivity. Qed.

(** The text of a list of clean entries parses back to that list, with or
    without a space in front (as after a separator). *)
Lemma parse_join (l : list string) :
  Forall cleanEntry l → l ≠ [] →
  parseStartLetters (jsJoin ", " l) = l
  ∧ parseStartLetters (String " " (jsJoin ", " l)) = l.
Proof.
  induction l as [|x l IH]; [congruence|]. intros Hall _.
  apply Forall_cons in Hall. destruct Hall as [(Hne & Htrim & Hsingle) Hall].
  assert (negb (String.eqb x "") = true) as Hkeep
    by (apply negb_true_iff, String.eqb_neq, Hne).
  assert (jsSplit "," (String " " x) = [String " " x]) as Hsingle'
    by (apply jsSplit_single_cons; [reflexivity | exact Hsingle]).
  destruct l as [|y l].
  - cbn [jsJoin]. unfold parseStartLetters. rewrite Hsingle, Hsingle'.
    cbn [fmap list_fmap List.filter]. rewrite jsTrim_space, Htrim, Hkeep. split; reflexivity.
  - destruct (IH Hall ltac:(discriminate)) as [_ IHsp].
    change (jsJoin ", " (x :: y :: l))
      with (x ++ String "," (String " " (jsJoin ", " (y :: l)))).
    change (String " " (x ++ String "," (String " " (jsJoin ", " (y :: l)))))
      with (String " " x ++ String "," (String " " (jsJoin ", " (y :: l)))).
    unfold parseStartLetters in *.
    rewrite (jsSplit_app_sep _ _ _ Hsingle), (jsSplit_app_sep _ _ _ Hsingle').
    cbn [fmap list_fmap List.filter] in *. rewrite jsTrim_space, Htrim, Hkeep.
    split; f_equal; exact IHsp.
Qed.

(** The start-letters input stores clean entries only, and the text it shows
    back ([startLetters.join(", ")]) parses to the very list that is stored:
    what the user sees is what the matcher gets. *)
Theorem startLetters_text_roundtrip (value : string) :
  Forall cleanEntry (parseStartLetters value)
  ∧ parseStartLetters (jsJoin ", " (parseStartLetters value)) = parseStartLetters value.
Proof.
  split; [apply parseStartLetters_clean|].
  destruct (parseStartLetters value) as [|x l] eqn:Hp; [reflexivity|].
  rewrite <- Hp. apply parse_join; [apply parseStartLetters_clean | congruence].
Qed.

Lemma jsSplit_nonempty (sep : ascii) (v : string) : jsSplit sep v ≠ [].
Proof.
  destruct v as [|c v]; cbn [jsSplit]; [discriminate|].
  destruct (Ascii.eqb c sep); [discriminate|]. destruct (jsSplit sep v); discriminate.
Qed.

Lemma jsSplit_trailing_sep (sep : ascii) (v : string) :
  jsSplit sep (v ++ String sep "") = (jsSplit sep v ++ [""])%list.
Proof.
  induction v as [|c v IH].
  - change ("" ++ String sep "") with (String sep ""). cbn [jsSplit].
    rewrite Ascii.eqb_refl. reflexivity.
  - change (String c v ++ String sep "") with (String c (v ++ String sep "")).
    cbn [jsSplit]. rewrite IH. destruct (Ascii.eqb c sep); [reflexivity|].
    pose proof (jsSplit_nonempty sep v) as Hne.
    destruct (jsSplit sep v); [congruence | reflexivity].
Qed.

(** A comma typed at the end of the start-letters text is lost: the list
    parsed from the longer text is the same, so the input, which shows the
    joined list, does not change ([jsJoin] of the same list). *)
Theorem startLetters_trailing_comma (value : string) (s : WishFilters) :
  parseStartLetters (value ++ ",") = parseStartLetters value
  ∧ startLettersChange (value ++ ",") s = startLettersChange value s.
Proof.
  assert (parseStartLetters (value ++ ",") = parseStartLetters value) as H.
  { unfold parseStartLetters. change "," with (String ","%char "") at 1.
    rewrite jsSplit_trailing_sep, fmap_app, List.filter_app. apply app_nil_r. }
  split; [exact H|]. unfold startLettersChange. rewrite H. reflexivity.
Qed.

(** ** The quick-filter controls *)

Lemma wellTyped_insert_other (k : string) (v : JsVal) (s : WishFilters) :
  k ≠ "sources" → k ≠ "startLetters" → k ≠ "startSounds" →
  wellTyped (<[k := v]> s) = wellTyped s.
Proof.
  intros H1 H2 H3. unfold wellTyped. rewrite !field_insert_ne by assumption. reflexivity.
Qed.

Lemma wellTyped_insert_list (k : string) (v : JsVal) (s : WishFilters) :
  In k ["sources"; "startLetters"; "startSounds"] →
  optStringArray v = true → wellTyped s = true → wellTyped (<[k := v]> s) = true.
Proof.
  unfold wellTyped. rewrite !andb_true_iff. intros Hk Hv [[Hs Hl] Hp].
  destruct Hk as [<- | [<- | [<- | []]]];
    rewrite field_insert_eq, !field_insert_ne by discriminate; auto.
Qed.

Lemma existsb_eqb_singleton (v : string) (l : list string) :
  existsb (fun s => existsb (String.eqb s) [v]) l = includesStr l v.
Proof.
  unfold includesStr. induction l as [|s l IH]; [reflexivity|]. cbn [existsb] in *.
  rewrite IH, orb_false_r, String.eqb_sym. reflexivity.
Qed.

(** The primary-source select.  The select shows again the value that was
    chosen; choosing ["None"] lifts the source constraint; choosing a source
    restricts the results to the records that cite it, on top of the other
    constraints. *)
Theorem source_select (corpus : list NameRecord) (v : string) (s : WishFilters) :
  wellTyped s = true →
  sourceValue (sourceChange v s) = JStr v
  ∧ searchNamesIn corpus (sourceChange v s)
    = Normal (take 40 (List.filter
                (fun n => (String.eqb v "None" || includesStr (sources n) v)
                          && matches (delete "sources" s) n) corpus)).
Proof.
  intros Hty. split.
  - unfold sourceValue, sourceChange. rewrite field_insert_eq.
    destruct (String.eqb_spec v "None") as [-> | _]; reflexivity.
  - rewrite searchNamesIn_typed
      by (apply wellTyped_insert_list;
          [cbn; tauto | destruct (String.eqb v "None"); reflexivity | exact Hty]).
    do 2 f_equal. apply List.filter_ext. intros n.
    unfold matches, genderOk, syllablesOk, deityOk, deityActive, sourcesOk,
      startLettersOk, startSoundsOk, sourceChange.
    rewrite field_insert_eq, field_delete_eq.
    rewrite !field_insert_ne, !field_delete_ne by discriminate. cbn [stringsOf].
    destruct (String.eqb v "None").
    + change (stringsOf (JArr [])) with (@nil string). reflexivity.
    + change (stringsOf (JArr [JStr v])) with [v]. cbv beta iota.
      rewrite existsb_eqb_singleton.
      destruct (includesStr (sources n) v); [reflexivity|].
      rewrite andb_false_r. reflexivity.
Qed.

Lemma source_select_witness :
  sourceValue (sourceChange "Upanishads" (filters initialState)) = JStr "Upanishads"
  ∧ searchNames (sourceChange "Upanishads" (filters initialState)) = Normal [Vedant].
Proof.
  destruct (source_select MOCK_NAMES "Upanishads" (filters initialState)) as [H1 H2];
    [vm_compute; reflexivity|].
  split; [exact H1|]. etransitivity; [exact H2 | vm_compute; reflexivity].
Defined.


(** ** The birth inputs *)

Lemma birthFieldChange_twice (k k' v v' : string) (s : WishFilters) :
  birthFieldChange k v (birthFieldChange k' v' s)
  = <["birth" := JObj (<[k := JStr v]> (<[k' := JStr v']>
                         (ownProps (jsOr (field s "birth") (JObj ∅)))))]>
      (<["vedicMode" := JBool true]> s).
Proof.
  unfold birthFieldChange at 1.
  assert (field (birthFieldChange k' v' s) "birth"
          = JObj (<[k' := JStr v']> (ownProps (jsOr (field s "birth") (JObj ∅))))) as ->
    by (unfold birthFieldChange; apply field_insert_eq).
  cbn [jsOr truthy ownProps]. unfold birthFieldChange.
  apply map_eq. intros i. rewrite !lookup_insert. repeat case_decide; reflexivity.
Qed.

(** Filling in the three birth inputs.  The order in which date, time and
    place are typed does not matter; [vedicMode] is on afterwards; the
    descriptor is complete exactly when none of the three texts is empty;
    and no other property of the filter is touched. *)
Theorem birth_inputs (d t p : string) (s : WishFilters) (k : string) :
  timeChange t (dateChange d s) = dateChange d (timeChange t s)
  ∧ placeChange p (dateChange d s) = dateChange d (placeChange p s)
  ∧ placeChange p (timeChange t s) = timeChange t (placeChange p s)
  ∧ field (placeChange p (timeChange t (dateChange d s))) "vedicMode" = JBool true
  ∧ birthComplete (placeChange p (timeChange t (dateChange d s)))
    = negb (String.eqb d "") && negb (String.eqb t "") && negb (String.eqb p "")
  ∧ (k = "birth" ∨ k = "vedicMode"
     ∨ placeChange p (timeChange t (dateChange d s)) !! k = s !! k).
Proof.
  unfold dateChange, timeChange, placeChange.
  split; [|split; [|split; [|split; [|split]]]].
  - rewrite !birthFieldChange_twice. do 2 f_equal. apply insert_insert_ne. discriminate.
  - rewrite !birthFieldChange_twice. do 2 f_equal. apply insert_insert_ne. discriminate.
  - rewrite !birthFieldChange_twice. do 2 f_equal. apply insert_insert_ne. discriminate.
  - unfold birthFieldChange at 1. rewrite field_insert_ne by discriminate.
    apply field_insert_eq.
  - unfold birthFieldChange at 1. rewrite birthFieldChange_twice.
    rewrite field_insert_eq. cbn [jsOr truthy ownProps].
    unfold birthComplete. rewrite field_insert_eq. cbn [optField].
    repeat (rewrite field_insert_eq || rewrite field_insert_ne by discriminate).
    reflexivity.
  - destruct (decide (k = "birth")) as [|Hb]; [left; assumption|].
    destruct (decide (k = "vedicMode")) as [|Hv]; [right; left; assumption|].
    right. right. unfold birthFieldChange.
    rewrite !lookup_insert_ne by congruence. reflexivity.
Qed.

(** ** Searching after any sequence of interactions *)

Lemma setStartSounds_wellTyped (astro : Astro) (s : WishFilters) :
  wellTyped s = true → wellTyped (setStartSounds astro s) = true.
Proof.
  intros H. apply wellTyped_insert_list; [cbn; tauto | apply optStringArray_strings | exact H].
Qed.

Lemma handle_wellTyped (Number : string → Z) (ev : UiEvent) (st : AppState) :
  wellTyped (filters st) = true → wellTyped (filters (handle Number ev st)) = true.
Proof.
  intros H. destruct ev; cbn [handle filters setFilters setWishes setTab]; try exact H;
    unfold genderChange, syllablesChange, scriptChange, deityChange, globalPronounceChange,
      lengthMaxChange, dateChange, timeChange, placeChange, birthFieldChange;
    rewrite ?wellTyped_insert_other by discriminate; try exact H.
  - apply wellTyped_insert_list; [cbn; tauto | destruct (String.eqb v "None"); reflexivity | exact H].
  - apply wellTyped_insert_list; [cbn; tauto | apply optStringArray_strings | exact H].
Qed.

Lemma handleAll_wellTyped (Number : string → Z) (evs : list UiEvent) (st : AppState) :
  wellTyped (filters st) = true → wellTyped (filters (handleAll Number evs st)) = true.
Proof.
  unfold handleAll. revert st. induction evs as [|ev evs IH]; intros st H; [exact H|].
  cbn [foldl]. apply IH, handle_wellTyped, H.
Qed.

(** No sequence of interactions with the controls can make Search throw:
    starting from a state whose filter is well-typed (the initial state is),
    after any inputs, selections and compare clicks, [onSearch] completes
    normally, stores the result of the search on the filter it resolved
    (the first forty corpus records matching it) and clears the loading
    flag. *)
Theorem search_after_interactions (Number : string → Z) (evs : list UiEvent) (st : AppState) :
  wellTyped (filters st) = true →
  let st' := handleAll Number evs st in
  let F := resolveOnSearch (tab st') (filters st') in
  searchNames F = Normal (take 40 (List.filter (matches F) MOCK_NAMES))
  ∧ onSearch st'
    = (setResults (take 40 (List.filter (matches F) MOCK_NAMES)) (setLoading false st'),
       Normal tt).
Proof.
  intros Hty. cbv zeta. apply (handleAll_wellTyped Number evs) in Hty.
  set (st' := handleAll Number evs st) in *.
  assert (wellTyped (resolveOnSearch (tab st') (filters st')) = true) as Hres.
  { unfold resolveOnSearch. destruct (String.eqb _ _ && birthComplete _); [|exact Hty].
    apply setStartSounds_wellTyped, Hty. }
  assert (searchNames (resolveOnSearch (tab st') (filters st'))
          = Normal (take 40 (List.filter (matches (resolveOnSearch (tab st') (filters st')))
                               MOCK_NAMES))) as Hrun
    by (apply searchNamesIn_typed, Hres).
  split; [exact Hrun|].
  unfold onSearch. cbn [setLoading tab filters]. rewrite Hrun. reflexivity.
Qed.

Lemma search_after_interactions_witness :
  onSearch (handleAll (fun _ => 2%Z)
              [SourceSelect "Puranas"; StartLettersInput "va, h"; DateInput "2024-05-01";
               SyllablesSelect "2"; CompareClick "3"] initialState)
  = (setResults [Vasu; Harish]
       (setLoading false
          (handleAll (fun _ => 2%Z)
             [SourceSelect "Puranas"; StartLettersInput "va, h"; DateInput "2024-05-01";
              SyllablesSelect "2"; CompareClick "3"] initialState)), Normal tt).
Proof.
  etransitivity;
    [apply (search_after_interactions (fun _ => 2%Z)
              [SourceSelect "Puranas"; StartLettersInput "va, h"; DateInput "2024-05-01";
               SyllablesSelect "2"; CompareClick "3"] initialState);
     vm_compute; reflexivity
    | vm_compute; reflexivity].
Defined.

(** A stored parse answer is another matter: an ill-typed fragment that
    matched nothing is kept by [setFilters], and a later, harmless change of
    gender makes Search throw. *)
Example stored_fragment_breaks_search :
  let parse := fun _ : string => Normal (JObj {[ "gender" := JStr "girl"; "startLetters" := JStr "V" ]}) in
  let st := fst (runParseAndSearch parse initialState) in
  snd (runParseAndSearch parse initialState) = Normal tt
  ∧ results st = []
  ∧ snd (onSearch (handle (fun _ => 2%Z) (GenderSelect "boy") st)) = Throw TypeError.
Proof. cbv zeta. repeat split; vm_compute; reflexivity. Qed.

(** ** The two search handlers *)

Lemma filter_none {A : Type} (p : A → bool) (l : list A) :
  (∀ x, In x l → p x = false) → List.filter p l = [].
Proof.
  induction l as [|x l IH]; intros H; [reflexivity|]. cbn [List.filter].
  rewrite (H x) by (left; reflexivity). apply IH. intros y Hy. apply H. right. exact Hy.
Qed.

(** The sounds the astrology placeholder returns begin no phonetic start of
    the corpus, so a filter enriched with them matches no record. *)
Lemma enriched_filter_matches_nothing (birth : JsVal) (F : WishFilters) :
  wellTyped F = true →
  searchNames (setStartSounds (getNakshatra birth) F) = Normal [].
Proof.
  intros Hty. unfold searchNames.
  rewrite (searchNamesIn_typed _ _ (setStartSounds_wellTyped _ _ Hty)).
  rewrite filter_none; [reflexivity|]. intros n Hn.
  assert (startSoundsOk (setStartSounds (getNakshatra birth) F) n = false) as Hno.
  { unfold startSoundsOk, setStartSounds. rewrite field_insert_eq. cbn [stringsOf].
    rewrite omap_asStr_strings.
    cbn in Hn. destruct Hn as [<-|[<-|[<-|[<-|[<-|[]]]]]]; vm_compute; reflexivity. }
  unfold matches. rewrite Hno. apply andb_false_r.
Qed.

(** Compute & Search on the Vedic tab with date, time and place filled in
    always ends with an empty result list on this corpus, whatever the other
    filters and whatever the birth details are. *)
Theorem vedic_search_finds_nothing (st : AppState) :
  wellTyped (filters st) = true →
  tab st = "vedic" →
  birthComplete (filters st) = true →
  onSearch st = (setResults [] (setLoading false st), Normal tt).
Proof.
  intros Hty Htab Hbirth. unfold onSearch. cbn [setLoading tab filters].
  unfold resolveOnSearch. rewrite Htab, Hbirth.
  change (("vedic" =? "vedic") && true) with true. cbv iota.
  rewrite (enriched_filter_matches_nothing _ _ Hty). reflexivity.
Qed.

Lemma vedic_search_finds_nothing_witness :
  onSearch {| tab := "vedic"; wishes := ""; loading := false;
              filters := placeChange "Chennai" (timeChange "06:30"
                           (dateChange "2024-05-01" (filters initialState)));
              results := MOCK_NAMES; compareIds := [] |}
  = (setResults [] (setLoading false
       {| tab := "vedic"; wishes := ""; loading := false;
          filters := placeChange "Chennai" (timeChange "06:30"
                       (dateChange "2024-05-01" (filters initialState)));
          results := MOCK_NAMES; compareIds := [] |}), Normal tt).
Proof.
  apply vedic_search_finds_nothing; vm_compute; reflexivity.
Defined.

(** The same through Parse & Search: once the merged filter has [vedicMode]
    on and a complete birth descriptor, the run stores the enriched filter
    and an empty result list. *)
Theorem vedic_parse_finds_nothing (parseWishesLLM : string → Completion JsVal)
    (st : AppState) (parsed : JsVal) :
  parseWishesLLM (wishes st) = Normal parsed →
  wellTyped (mergeFilters (filters st) parsed) = true →
  truthy (field (mergeFilters (filters st) parsed) "vedicMode") = true →
  birthComplete (mergeFilters (filters st) parsed) = true →
  runParseAndSearch parseWishesLLM st
  = (setResults [] (setFilters (resolve (filters st) parsed) (setLoading false st)), Normal tt)
  ∧ field (resolve (filters st) parsed) "startSounds"
    = JArr [JStr "Hu"; JStr "He"; JStr "Ho"; JStr "Da"].
Proof.
  intros Hparse Hty Hflag Hbirth.
  assert (resolve (filters st) parsed
          = setStartSounds (getNakshatra (field (mergeFilters (filters st) parsed) "birth"))
              (mergeFilters (filters st) parsed)) as Hres
    by (unfold resolve; rewrite Hflag, Hbirth; reflexivity).
  split.
  - unfold runParseAndSearch. cbn [setLoading wishes filters]. rewrite Hparse.
    cbn [mbind Completion_bind]. rewrite Hres at 1.
    rewrite (enriched_filter_matches_nothing _ _ Hty). reflexivity.
  - rewrite Hres. unfold setStartSounds. rewrite field_insert_eq. reflexivity.
Qed.

Lemma vedic_parse_finds_nothing_witness :
  runParseAndSearch
    (fun _ => Normal (JObj {[ "gender" := JStr "boy"; "vedicMode" := JBool true;
                              "birth" := JObj {[ "date" := JStr "2024-05-01";
                                                 "time" := JStr "06:30";
                                                 "place" := JStr "Chennai" ]} ]}))
    initialState
  = (setResults []
       (setFilters
          (resolve (filters initialState)
             (JObj {[ "gender" := JStr "boy"; "vedicMode" := JBool true;
                      "birth" := JObj {[ "date" := JStr "2024-05-01";
                                         "time" := JStr "06:30";
                                         "place" := JStr "Chennai" ]} ]}))
          (setLoading false initialState)), Normal tt).
Proof.
  apply (vedic_parse_finds_nothing
           (fun _ => Normal (JObj {[ "gender" := JStr "boy"; "vedicMode" := JBool true;
                                     "birth" := JObj {[ "date" := JStr "2024-05-01";
                                                        "time" := JStr "06:30";
                                                        "place" := JStr "Chennai" ]} ]}))
           initialState _ eq_refl); vm_compute; reflexivity.
Defined.

(** What the handlers leave alone.  Both end with the loading flag cleared
    on every exit and never touch the tab, the wishes text or the compare
    selection; [onSearch] never stores a filter (its enrichment is used for
    the one search only); and a handler that throws leaves filters and
    results exactly as they were. *)
Theorem handlers_frame (parseWishesLLM : string → Completion JsVal) (st : AppState) (e : Exn) :
  let after := fst (onSearch st) in
  let after' := fst (runParseAndSearch parseWishesLLM st) in
  loading after = false ∧ tab after = tab st ∧ wishes after = wishes st
  ∧ compareIds after = compareIds st ∧ filters after = filters st
  ∧ loading after' = false ∧ tab after' = tab st ∧ wishes after' = wishes st
  ∧ compareIds after' = compareIds st
  ∧ (snd (onSearch st) = Throw e → onSearch st = (setLoading false st, Throw e))
  ∧ (snd (runParseAndSearch parseWishesLLM st) = Throw e →
     runParseAndSearch parseWishesLLM st = (setLoading false st, Throw e)).
Proof.
  cbv zeta. unfold onSearch, runParseAndSearch. cbn [setLoading tab wishes filters].
  destruct (searchNames (resolveOnSearch (tab st) (filters st))) as [r|e1];
    destruct (parseWishesLLM (wishes st)) as [parsed|e2]; cbn [mbind Completion_bind];
    try destruct (searchNames (resolve (filters st) parsed)) as [r'|e3];
    cbn; repeat split; try discriminate; intros [= <-]; reflexivity.
Qed.

Lemma resolve_idem (A : WishFilters) (parsed : JsVal) :
  resolve (resolve A parsed) parsed = resolve A parsed.
Proof.
  unfold resolve, mergeFilters. set (P := ownProps parsed).
  assert (∀ (v : JsVal) k, k ≠ "startSounds" →
            (P ∪ <["startSounds" := v]> (P ∪ A)) !! k = (P ∪ A) !! k) as Hother.
  { intros v k Hk. rewrite !lookup_union, lookup_insert_ne by congruence.
    rewrite lookup_union. destruct (P !! k), (A !! k); reflexivity. }
  assert (P ∪ (P ∪ A) = P ∪ A) as Hsame.
  { apply map_eq. intros k. rewrite !lookup_union.
    destruct (P !! k), (A !! k); reflexivity. }
  destruct (truthy (field (P ∪ A) "vedicMode") && birthComplete (P ∪ A)) eqn:Hgate.
  - unfold setStartSounds.
    set (v := JArr (JStr <$> startSounds (getNakshatra (field (P ∪ A) "birth")))).
    assert (∀ k, k ≠ "startSounds" →
              field (P ∪ <["startSounds" := v]> (P ∪ A)) k = field (P ∪ A) k) as Hfield
      by (intros k Hk; unfold field; rewrite Hother by exact Hk; reflexivity).
    unfold birthComplete in *. rewrite !Hfield by discriminate. rewrite Hgate.
    apply map_eq. intros k. destruct (decide (k = "startSounds")) as [->|Hk].
    + rewrite !lookup_insert_eq. reflexivity.
    + rewrite !lookup_insert_ne by congruence. apply Hother, Hk.
  - rewrite Hsame, Hgate. reflexivity.
Qed.

(** After a Parse & Search that completed, the page is at rest: running it
    again on the same answer of the collaborator, or pressing Search while
    the Vedic tab is not selected, gives back the same state, results and
    stored filter included. *)
Theorem parse_and_search_settles (parseWishesLLM : string → Completion JsVal)
    (st st' : AppState) :
  runParseAndSearch parseWishesLLM st = (st', Normal tt) →
  runParseAndSearch parseWishesLLM st' = (st', Normal tt)
  ∧ (tab st ≠ "vedic" → onSearch st' = (st', Normal tt)).
Proof.
  unfold runParseAndSearch at 1. cbn [setLoading wishes filters].
  destruct (parseWishesLLM (wishes st)) as [parsed|e] eqn:Hparse; [|discriminate].
  cbn [mbind Completion_bind].
  destruct (searchNames (resolve (filters st) parsed)) as [r|e] eqn:Hsearch; [|discriminate].
  cbn. intros [= <-]. split.
  - unfold runParseAndSearch. cbn [setLoading setResults setFilters wishes filters].
    rewrite Hparse. cbn [mbind Completion_bind]. rewrite resolve_idem, Hsearch. reflexivity.
  - intros Htab. unfold onSearch. cbn [setLoading setResults setFilters tab filters].
    unfold resolveOnSearch. apply String.eqb_neq in Htab. rewrite Htab. cbn [andb].
    rewrite Hsearch. reflexivity.
Qed.

Lemma parse_and_search_settles_witness :
  runParseAndSearch (fun _ => Normal (JObj {[ "deity" := JStr "Vishnu"; "syllables" := JNum 2 ]}))
    (fst (runParseAndSearch
            (fun _ => Normal (JObj {[ "deity" := JStr "Vishnu"; "syllables" := JNum 2 ]}))
            initialState))
  = (fst (runParseAndSearch
            (fun _ => Normal (JObj {[ "deity" := JStr "Vishnu"; "syllables" := JNum 2 ]}))
            initialState), Normal tt).
Proof.
  apply (parse_and_search_settles
           (fun _ => Normal (JObj {[ "deity" := JStr "Vishnu"; "syllables" := JNum 2 ]}))
           initialState).
  vm_compute. reflexivity.
Defined.
